(** * Express-jobly: authorization middleware and SQL clause construction

    A shallow embedding of

    - [helpers/sql.js]       ([sqlForPartialUpdate]),
    - [middleware/auth.js]   ([authenticateJWT], [ensureLoggedIn], [ensureAdmin],
                              [ensureOwnerOrAdmin]),
    - [models/job.js]        ([Job.create], [Job.findAll], [Job.get], [Job.update],
                              [Job.remove]),
    - [models/user.js]       ([User.authenticate], [User.register], [User.update],
                              [User.apply]),
    - [routes/jobs.js]       (the five routes)

    together with the properties the specification states about them.

    JavaScript objects that the code only reads by key are finite maps
    ([gmap]); the object whose key order the code depends on
    ([dataToUpdate]) is the list of its own properties in enumeration
    order.  Exceptions are an explicit result type; an [async] function is
    the tree of the promises it awaits. *)

From Stdlib Require Import Ascii.
From stdpp Require Import gmap strings list fin_maps pretty.

Open Scope string_scope.
Set Warnings "-register-all".

(** ** JavaScript values *)

(** The values that reach the code from a JSON body or a parsed query
    string.  Numbers are the integers: the code does no arithmetic on the
    values it is handed. *)
Inductive jsval : Type :=
  | JUndefined
  | JNull
  | JBool (b : bool)
  | JNum (z : Z)
  | JStr (s : string)
  | JArr (elems : list jsval)
  | JObj (props : list (string * jsval)).

(** ToBoolean, as applied by [if (...)], [||] and [!]. *)
Definition truthy (v : jsval) : bool :=
  match v with
  | JUndefined | JNull => false
  | JBool b => b
  | JNum z => negb (z =? 0)%Z
  | JStr s => negb (String.eqb s EmptyString)
  | JArr _ | JObj _ => true
  end.

(** [v === "lit"] for a string literal. *)
Definition strict_eq_str (v : jsval) (lit : string) : bool :=
  match v with
  | JStr s => String.eqb s lit
  | _ => false
  end.

(** An object with its own enumerable properties in enumeration order,
    the order [Object.keys] and [Object.values] both follow. *)
Abbreviation jsobject := (list (string * jsval)).

Definition Object_keys (o : jsobject) : list string := o.*1.
Definition Object_values (o : jsobject) : list jsval := o.*2.

(** [Array.prototype.join] on an array of strings. *)
Definition join (sep : string) (parts : list string) : string :=
  String.concat sep parts.

(** The double-quote character as a one-character string. *)
Definition dquote : string := String (Ascii.ascii_of_nat 34) EmptyString.

(** ** Errors and results *)

(** The error classes of [expressError.js] that the code throws, and the
    [TypeError] the runtime raises on a property read of [undefined] or a
    call of a non-function.  A message of [None] is the class's default. *)
Inductive error : Type :=
  | BadRequestError (message : string)
  | UnauthorizedError (message : option string)
  | ForbiddenError (message : string)
  | TypeError.

Inductive result (A : Type) : Type :=
  | Ok (a : A)
  | Throw (e : error).
Arguments Ok {A} a.
Arguments Throw {A} e.

#[global] Instance result_ret : MRet result := λ A a, Ok a.

#[global] Instance result_bind : MBind result := λ A B k r,
  match r with
  | Ok a => k a
  | Throw e => Throw e
  end.

#[global] Instance result_fmap : FMap result := λ A B f r,
  match r with
  | Ok a => Ok (f a)
  | Throw e => Throw e
  end.

Definition returns {A} (r : result A) : Prop := ∃ a, r = Ok a.

(** ** helpers/sql.js *)

Module Sql.

(** The members an object literal inherits from [Object.prototype], each
    with the text a template literal renders for it under Node.js.  A read
    [jsToSql[colName]] falls back to these when [jsToSql] has no own
    property of that name. *)
Definition native (name : string) : string :=
  "function " +:+ name +:+ "() { [native code] }".

Definition Object_prototype : list (string * string) :=
  [ ("constructor", native "Object");
    ("__defineGetter__", native "__defineGetter__");
    ("__defineSetter__", native "__defineSetter__");
    ("hasOwnProperty", native "hasOwnProperty");
    ("__lookupGetter__", native "__lookupGetter__");
    ("__lookupSetter__", native "__lookupSetter__");
    ("isPrototypeOf", native "isPrototypeOf");
    ("propertyIsEnumerable", native "propertyIsEnumerable");
    ("toString", native "toString");
    ("valueOf", native "valueOf");
    ("__proto__", "[object Object]");
    ("toLocaleString", native "toLocaleString") ].

Fixpoint assoc (name : string) (table : list (string * string)) : option string :=
  match table with
  | [] => None
  | (k, v) :: rest => if String.eqb k name then Some v else assoc name rest
  end.

Definition inherited (name : string) : bool :=
  bool_decide (is_Some (assoc name Object_prototype)).

(** The value of [jsToSql[colName]]. *)
Inductive property : Type :=
  | Own (col : string)
  | Inherited (text : string)
  | Undefined.

Definition get (jsToSql : gmap string string) (colName : string) : property :=
  match jsToSql !! colName with
  | Some col => Own col
  | None =>
      match assoc colName Object_prototype with
      | Some text => Inherited text
      | None => Undefined
      end
  end.

(** [`${jsToSql[colName] || colName}`]: [undefined] and the empty string
    are falsy, functions and objects are truthy. *)
Definition column (jsToSql : gmap string string) (colName : string) : string :=
  match get jsToSql colName with
  | Own col => if String.eqb col EmptyString then colName else col
  | Inherited text => text
  | Undefined => colName
  end.

(** [`"${...}"=$${idx + 1}`] *)
Definition fragment (jsToSql : gmap string string) (idx : nat) (colName : string) : string :=
  dquote +:+ column jsToSql colName +:+ dquote +:+ "=$" +:+ pretty (idx + 1).

(** [keys.map((colName, idx) => ...)] *)
Definition cols (dataToUpdate : jsobject) (jsToSql : gmap string string) : list string :=
  imap (fragment jsToSql) (Object_keys dataToUpdate).

Record clause : Type := { setCols : string; values : list jsval }.

Definition sqlForPartialUpdate (dataToUpdate : jsobject) (jsToSql : gmap string string)
  : result clause :=
  let keys := Object_keys dataToUpdate in
  if decide (length keys = 0) then Throw (BadRequestError "No data")
  else
    Ok {| setCols := join ", " (cols dataToUpdate jsToSql);
          values := Object_values dataToUpdate |}.

(** The default [jsToSql = {}] of the one-argument call. *)
Definition sqlForPartialUpdate1 (dataToUpdate : jsobject) : result clause :=
  sqlForPartialUpdate dataToUpdate ∅.

End Sql.

(** ** middleware/auth.js *)

Module Auth.

(** The token payload [{ username?, isAdmin? }] that [authenticateJWT]
    stores in [res.locals.user]; [res.locals.user] itself is [None]
    ([undefined]) when no valid token came with the request. *)
Record payload : Type := { username : option string; isAdmin : option bool }.

(** What a middleware hands to Express: [next()] or [next(err)]. *)
Inductive outcome : Type :=
  | Next
  | NextErr (err : error).

(** [try { ... } catch (err) { return next(err); }] *)
Definition try_next (body : result outcome) : outcome :=
  match body with
  | Ok o => o
  | Throw err => NextErr err
  end.

(** A property read [user.field]: a [TypeError] when [user] is [undefined]. *)
Definition read {A} (user : option payload) (field : payload → A) : result A :=
  match user with
  | Some p => Ok (field p)
  | None => Throw TypeError
  end.

(** ToBoolean of an optional boolean field: [undefined] is falsy. *)
Definition flag (b : option bool) : bool := default false b.

Definition ensureLoggedIn (locals_user : option payload) : outcome :=
  try_next
    (if negb (bool_decide (is_Some locals_user))
     then Throw (UnauthorizedError None)
     else Ok Next).

Definition ensureAdmin (locals_user : option payload) : outcome :=
  try_next
    (match locals_user with
     | Some p =>
         if flag (isAdmin p) then Ok Next
         else Throw (ForbiddenError "User must be admin")
     | None => Throw (UnauthorizedError (Some "No token provided or invalid token"))
     end).

Definition ensureOwnerOrAdmin (locals_user : option payload) (params_username : string)
  : outcome :=
  try_next
    (let loggedInUser := locals_user in
     let userIdFromParams := params_username in
     admin ← read loggedInUser isAdmin;
     if flag admin then Ok Next
     else
       name ← read loggedInUser username;
       if bool_decide (name = Some userIdFromParams) then Ok Next
       else Throw (ForbiddenError "You do not have permission to access this resource")).

(** The outcomes the specification names. *)
Definition allowed (o : outcome) : Prop := o = Next.
Definition unauthorized (o : outcome) : Prop := ∃ m, o = NextErr (UnauthorizedError m).
Definition forbidden (o : outcome) : Prop := ∃ m, o = NextErr (ForbiddenError m).

End Auth.

(** ** models/job.js *)

Module Job.

(** A value handed to [db.query] as a positional parameter: a value as
    it is, or the number [Number(v)] (left uninterpreted: it may be NaN). *)
Inductive param : Type :=
  | Lit (v : jsval)
  | NumberOf (v : jsval).

(** The two arrays [findAll] fills. *)
Record filters : Type := { queryFilters : list string; queryValues : list param }.

Definition no_filters : filters := {| queryFilters := []; queryValues := [] |}.

(** [queryFilters.push(text(queryValues.length + 1)); queryValues.push(v)] *)
Definition push (text : string → string) (v : param) (st : filters) : filters :=
  {| queryFilters := queryFilters st ++ [text (pretty (length (queryValues st) + 1))];
     queryValues := queryValues st ++ [v] |}.

Definition title_text (n : string) : string := "title ILIKE $" +:+ n.
Definition salary_text (n : string) : string := "salary >= $" +:+ n +:+ " ".
Definition equity_text (n : string) : string :=
  "equity > $" +:+ n +:+ " AND equity IS NOT NULL".

(** [`%${word}%`] *)
Definition wildcard (word : string) : param := Lit (JStr ("%" +:+ word +:+ "%")).

Definition push_word (st : filters) (word : string) : filters :=
  push title_text (wildcard word) st.

(** [s.split(" ")]: every space character separates; the result is never
    empty. *)
Fixpoint split_space (s : string) : list string :=
  match s with
  | EmptyString => [EmptyString]
  | String c rest =>
      if Ascii.eqb c " "%char then EmptyString :: split_space rest
      else
        match split_space rest with
        | w :: ws => String c w :: ws
        | [] => [String c EmptyString]
        end
  end.

(** [title.split(" ")] for an arbitrary value: only strings have a
    [split] method, calling it on anything else is a [TypeError]. *)
Definition split (title : jsval) : result (list string) :=
  match title with
  | JStr s => Ok (split_space s)
  | _ => Throw TypeError
  end.

(** A destructured property: the own property, [undefined] when absent. *)
Definition field (queries : gmap string jsval) (key : string) : jsval :=
  default JUndefined (queries !! key).

(** The default of a destructuring pattern applies to [undefined] only. *)
Definition or_default (dflt v : jsval) : jsval :=
  match v with
  | JUndefined => dflt
  | _ => v
  end.

(** [const { title = "", minSalary = null, hasEquity } = queries;] *)
Definition title_of (queries : gmap string jsval) : jsval :=
  or_default (JStr EmptyString) (field queries "title").
Definition minSalary_of (queries : gmap string jsval) : jsval :=
  or_default JNull (field queries "minSalary").
Definition hasEquity_of (queries : gmap string jsval) : jsval :=
  field queries "hasEquity".

(** [v !== null] *)
Definition not_null (v : jsval) : bool :=
  match v with
  | JNull => false
  | _ => true
  end.

(** [if (title) { for (let word of title.split(" ")) ... }] *)
Definition title_step (title : jsval) (st : filters) : result filters :=
  if truthy title
  then words ← split title; Ok (foldl push_word st words)
  else Ok st.

(** [if (minSalary !== null) ...] *)
Definition salary_step (minSalary : jsval) (st : filters) : filters :=
  if not_null minSalary then push salary_text (NumberOf minSalary) st else st.

(** [if (hasEquityBoolean) ...] *)
Definition equity_step (hasEquityBoolean : bool) (st : filters) : filters :=
  if hasEquityBoolean then push equity_text (Lit (JNum 0)) st else st.

(** [findAll] up to the point where both arrays are complete. *)
Definition findAll_filters (queries : gmap string jsval) : result filters :=
  let title := title_of queries in
  let minSalary := minSalary_of queries in
  let hasEquity := hasEquity_of queries in
  let hasEquityBoolean := strict_eq_str hasEquity "true" in
  st1 ← title_step title no_filters;
  let st2 := salary_step minSalary st1 in
  let st3 := equity_step hasEquityBoolean st2 in
  Ok st3.

Definition whereClause (queryFilters : list string) : string :=
  if bool_decide (0 < length queryFilters)
  then "WHERE " +:+ join " AND " queryFilters
  else EmptyString.

Definition nl : string := String (Ascii.ascii_of_nat 10) EmptyString.
Definition tab : string := String (Ascii.ascii_of_nat 9) EmptyString.

Definition select_text (whereClause : string) : string :=
  "SELECT id, title, salary, equity, company_handle AS "
    +:+ dquote +:+ "companyHandle" +:+ dquote +:+ nl
    +:+ "           FROM jobs" +:+ nl
    +:+ tab +:+ tab +:+ "   " +:+ whereClause +:+ nl
    +:+ "           ORDER BY title".

(** The statement text and the parameters [findAll] passes to [db.query]. *)
Definition findAll_query (queries : gmap string jsval) : result (string * list param) :=
  st ← findAll_filters queries;
  Ok (select_text (whereClause (queryFilters st)), queryValues st).

Section WithDb.
(** The statement-execution capability [db.query]. *)
Context {rows : Type} (db_query : string → list param → result rows).

(** [findAll(queries = {})]: an omitted argument is the empty object. *)
Definition findAll (queries : option (gmap string jsval)) : result rows :=
  '(text, values) ← findAll_query (default ∅ queries);
  db_query text values.
End WithDb.

(** *** Auxiliary notions used to state facts about [findAll] *)


(** What the word loop leaves in the arrays when it starts from empty ones. *)
Definition title_filters (words : list string) : filters :=
  {| queryFilters := imap (λ i _, title_text (pretty (i + 1))) words;
     queryValues := wildcard <$> words |}.

(** Every placeholder pushed so far has its parameter. *)
Definition balanced (st : filters) : Prop :=
  length (queryFilters st) = length (queryValues st).

(** The number of words the title criterion contributes. *)
Definition word_count (title : jsval) : result nat :=
  if truthy title then length <$> split title else Ok 0.

(** The predicate texts alone, from the number of words and the two
    activity flags. *)
Definition push_text (text : string → string) (fs : list string) : list string :=
  fs ++ [text (pretty (length fs + 1))].

Definition filter_texts (words : nat) (salary equity : bool) : list string :=
  let fs1 := (λ i, title_text (pretty (i + 1))) <$> seq 0 words in
  let fs2 := if salary then push_text salary_text fs1 else fs1 in
  if equity then push_text equity_text fs2 else fs2.


End Job.

(** ** The specification's wording, for comparison with the code *)

Module Stated.

(** "columnTranslation's entry for the key when one exists and the key's own
    name verbatim otherwise". *)
Definition column (columnTranslation : gmap string string) (key : string) : string :=
  default key (columnTranslation !! key).

(** The [N]th fragment, ["<column>"=$N], counting from one. *)
Definition fragment (columnTranslation : gmap string string) (N : nat) (key : string)
  : string :=
  dquote +:+ column columnTranslation key +:+ dquote +:+ "=$" +:+ pretty N.

(** The partial-update builder as the specification describes its result. *)
Definition partial_update (updateSpec : jsobject) (columnTranslation : gmap string string)
  : Prop :=
  ∃ c, Sql.sqlForPartialUpdate updateSpec columnTranslation = Ok c
     ∧ length (Sql.cols updateSpec columnTranslation) = length (Object_keys updateSpec)
     ∧ ∀ n key v, updateSpec !! n = Some (key, v) →
         Sql.cols updateSpec columnTranslation !! n
         = Some (fragment columnTranslation (n + 1) key)
         ∧ Sql.values c !! n = Some v.

(** Space, tab, line feed, vertical tab, form feed, carriage return. *)
Definition is_whitespace (c : ascii) : bool :=
  existsb (λ n, Ascii.eqb c (Ascii.ascii_of_nat n)) [32; 9; 10; 11; 12; 13].

(** "split on whitespace into words": the maximal runs of characters that
    are not whitespace. *)
Fixpoint words (s : string) : list string :=
  match s with
  | EmptyString => []
  | String c rest =>
      if is_whitespace c then words rest
      else
        match rest with
        | EmptyString => [String c EmptyString]
        | String c' _ =>
            if is_whitespace c' then String c EmptyString :: words rest
            else
              match words rest with
              | w :: ws => String c w :: ws
              | [] => [String c EmptyString]
              end
        end
  end.


(** "Actor.username is present". *)
Definition username_present (actor : option Auth.payload) : Prop :=
  ∃ p name, actor = Some p ∧ Auth.username p = Some name.

(** [requireAuthenticated] as the specification describes it. *)
Definition requireAuthenticated (actor : option Auth.payload) : Prop :=
  (Auth.allowed (Auth.ensureLoggedIn actor) ↔ username_present actor)
  ∧ (¬ username_present actor → Auth.unauthorized (Auth.ensureLoggedIn actor)).

(** [requireAdmin] as the specification describes it, an actor without a
    username being anonymous: Unauthorized for the anonymous actor,
    Forbidden for an authenticated one whose [isAdmin] is false, allowed
    for an authenticated one whose [isAdmin] is true. *)
Definition requireAdmin (actor : option Auth.payload) : Prop :=
  (¬ username_present actor → Auth.unauthorized (Auth.ensureAdmin actor))
  ∧ (username_present actor →
     (∃ p, actor = Some p ∧ Auth.isAdmin p = Some false) →
     Auth.forbidden (Auth.ensureAdmin actor))
  ∧ (username_present actor →
     (∃ p, actor = Some p ∧ Auth.isAdmin p = Some true) →
     Auth.allowed (Auth.ensureAdmin actor)).

End Stated.

(** ** middleware/auth.js: [authenticateJWT], and the order Express runs guards in *)

Module Token.

(** The characters [trim] strips, for a header value as Node delivers it
    (one Latin-1 character per [ascii]): tab, line feed, vertical tab, form
    feed, carriage return, space, no-break space. *)
Definition is_space (c : ascii) : bool :=
  existsb (λ n, Ascii.eqb c (Ascii.ascii_of_nat n)) [9; 10; 11; 12; 13; 32; 160].

Fixpoint trimStart (s : string) : string :=
  match s with
  | EmptyString => EmptyString
  | String c rest => if is_space c then trimStart rest else s
  end.

Fixpoint trimEnd (s : string) : string :=
  match s with
  | EmptyString => EmptyString
  | String c rest =>
      match trimEnd rest with
      | EmptyString => if is_space c then EmptyString else String c EmptyString
      | kept => String c kept
      end
  end.

(** [s.trim()] *)
Definition trim (s : string) : string := trimEnd (trimStart s).

(** Every character is one that [trim] strips. *)
Fixpoint blank (s : string) : bool :=
  match s with
  | EmptyString => true
  | String c rest => is_space c && blank rest
  end.

Fixpoint starts_with (p s : string) : bool :=
  match p, s with
  | EmptyString, _ => true
  | String a p', String b s' => Ascii.eqb a b && starts_with p' s'
  | String _ _, EmptyString => false
  end.

Fixpoint skip (n : nat) (s : string) : string :=
  match n, s with
  | S n', String _ s' => skip n' s'
  | _, _ => s
  end.

(** [s.replace(/^[Bb]earer /, "")] *)
Definition strip_bearer (s : string) : string :=
  if starts_with "Bearer " s || starts_with "bearer " s then skip 7 s else s.

Section Authenticate.
(** [SECRET_KEY] of [config.js] and [jwt.verify] of the jsonwebtoken
    library: the decoded payload, or [None] when it throws. *)
Context (SECRET_KEY : string) (jwt_verify : string → string → option Auth.payload).

(** [authenticateJWT]: the new [res.locals.user] and what is handed to
    Express.  [req_headers] is [req.headers], a map of the header values. *)
Definition authenticateJWT
    (req_headers : option (gmap string string)) (locals_user : option Auth.payload)
  : option Auth.payload * Auth.outcome :=
  let authHeader := h ← req_headers; h !! "authorization" in
  match authHeader with
  | Some header =>
      if negb (String.eqb header EmptyString)
      then
        let token := trim (strip_bearer header) in
        match jwt_verify token SECRET_KEY with
        | Some payload => (Some payload, Auth.Next)
        | None => (locals_user, Auth.Next)
        end
      else (locals_user, Auth.Next)
  | None => (locals_user, Auth.Next)
  end.
End Authenticate.

(** A route's guards run in the order they are listed; the first
    [next(err)] ends the chain and the handler is not reached. *)
Fixpoint chain (guards : list (option Auth.payload → Auth.outcome))
    (locals_user : option Auth.payload) : Auth.outcome :=
  match guards with
  | [] => Auth.Next
  | guard :: rest =>
      match guard locals_user with
      | Auth.Next => chain rest locals_user
      | Auth.NextErr err => Auth.NextErr err
      end
  end.

End Token.

(** ** Asynchronous code: promises awaited one after the other *)

Module Async.

(** A template literal that is an error message: its text and the values
    interpolated into it. *)
Inductive piece : Type :=
  | Text (s : string)
  | Interp (v : jsval).

(** What an [async] function of the models or routes is rejected with. *)
Inductive failure : Type :=
  | Raised (e : error)
  | BadRequest (message : list piece)
  | BadRequestAll (errs : list string)
  | NotFound (message : list piece)
  | External (reason : string).

(** A settled promise of an external library. *)
Inductive settled (R : Type) : Type :=
  | Fulfilled (r : R)
  | Rejected (reason : string).
Arguments Fulfilled {R} r.
Arguments Rejected {R} reason.

(** The promises the code awaits: [db.query(text, params)] with its
    [rows], [bcrypt.hash], [bcrypt.compare], and [Promise.all] of two. *)
Inductive call : Type → Type :=
  | db_query (text : string) (params : list Job.param) : call (list jsobject)
  | bcrypt_hash (data : jsval) (rounds : Z) : call string
  | bcrypt_compare (data : jsval) (encrypted : jsval) : call bool
  | Promise_all {A B : Type} (first : call A) (second : call B) : call (A * B).

(** An [async] function body: it returns, throws, or awaits a promise and
    continues with what the promise settled to. *)
Inductive async (A : Type) : Type :=
  | Return (a : A)
  | Reject (f : failure)
  | Await {R : Type} (c : call R) (k : settled R → async A).
Arguments Return {A} a.
Arguments Reject {A} f.
Arguments Await {A R} c k.

(** [await c] outside any [try]: a rejection is thrown on. *)
Definition await {A R} (c : call R) (k : R → async A) : async A :=
  Await c (λ s, match s with
                | Fulfilled r => k r
                | Rejected reason => Reject (External reason)
                end).

(** [await f(...)] for an [async] function [f] of the code itself. *)
Fixpoint then_ {A B} (t : async A) (k : A → async B) : async B :=
  match t with
  | Return a => k a
  | Reject f => Reject f
  | Await c k' => Await c (λ s, then_ (k' s) k)
  end.

(** [try { t } catch (err) { handler(err) }] *)
Fixpoint try_catch {A} (t : async A) (handler : failure → async A) : async A :=
  match t with
  | Return a => Return a
  | Reject f => handler f
  | Await c k => Await c (λ s, try_catch (k s) handler)
  end.

(** A synchronous helper's result inside an [async] function. *)
Definition lift {A} (r : result A) : async A :=
  match r with
  | Ok a => Return a
  | Throw e => Reject (Raised e)
  end.

(** One awaited promise, for the record of what a run awaited. *)
Inductive awaited : Type :=
  | Awaited {R : Type} (c : call R).

(** The world outside: what each promise settles to, which may depend on
    everything awaited before it. *)
Definition world : Type := ∀ R, list awaited → call R → settled R.

(** Run an [async] function in a world: the promises it awaited, in order,
    and how it ended. *)
Fixpoint run_from {A} (w : world) (past : list awaited) (t : async A)
  : list awaited * (failure + A) :=
  match t with
  | Return a => (past, inr a)
  | Reject f => (past, inl f)
  | Await c k => run_from w (past ++ [Awaited c]) (k (w _ past c))
  end.

Definition run {A} (w : world) (t : async A) : list awaited * (failure + A) :=
  run_from w [] t.

(** [rows[0]], and [rows[0]] as a value that may be [undefined]. *)
Definition first_row (rows : list jsobject) : option jsobject := head rows.
Definition first_value (rows : list jsobject) : jsval :=
  match rows with
  | [] => JUndefined
  | row :: _ => JObj row
  end.

(** [o.key] for a key no object inherits. *)
Fixpoint prop (o : jsobject) (key : string) : jsval :=
  match o with
  | [] => JUndefined
  | (k, v) :: rest => if String.eqb k key then v else prop rest key
  end.

(** ["key" in o] *)
Definition has (key : string) (o : jsobject) : bool :=
  existsb (String.eqb key) (Object_keys o) || Sql.inherited key.

(** [o.key = v] for a key [o] already has: the property keeps its place. *)
Fixpoint assign (o : jsobject) (key : string) (v : jsval) : jsobject :=
  match o with
  | [] => [(key, v)]
  | (k, old) :: rest =>
      if String.eqb k key then (k, v) :: rest else (k, old) :: assign rest key v
  end.

(** [delete o.key] *)
Definition delete_prop (o : jsobject) (key : string) : jsobject :=
  filter (λ kv, kv.1 ≠ key) o.

(** The statement texts among the promises of a run. *)
Fixpoint call_texts {R} (c : call R) : list string :=
  match c with
  | db_query text _ => [text]
  | bcrypt_hash _ _ | bcrypt_compare _ _ => []
  | Promise_all first second => call_texts first ++ call_texts second
  end.

Definition texts (past : list awaited) : list string :=
  past ≫= (λ a, match a with Awaited c => call_texts c end).

(** A world that answers by kind of promise, whatever came before:
    [Promise.all] is fulfilled when both promises are, and rejected with
    the first one's reason otherwise. *)
Fixpoint answer (db : string → list Job.param → settled (list jsobject))
    (hash : jsval → settled string) (compare : jsval → jsval → settled bool)
    {R} (c : call R) : settled R :=
  match c with
  | db_query text params => db text params
  | bcrypt_hash data _ => hash data
  | bcrypt_compare data encrypted => compare data encrypted
  | Promise_all first second =>
      match answer db hash compare first, answer db hash compare second with
      | Fulfilled a, Fulfilled b => Fulfilled (a, b)
      | Rejected reason, _ | _, Rejected reason => Rejected reason
      end
  end.

Definition world_of (db : string → list Job.param → settled (list jsobject))
    (hash : jsval → settled string) (compare : jsval → jsval → settled bool) : world :=
  λ R _ c, answer db hash compare c.

End Async.

(** ** models/job.js: the methods that talk to the database *)

Module JobDb.
Import Async.

Definition nl : string := Job.nl.

(** Plain values as positional parameters. *)
Definition lit (vs : list jsval) : list Job.param := Job.Lit <$> vs.

Definition create_check_sql : string :=
  "SELECT title" +:+ nl +:+ "           FROM jobs" +:+ nl
    +:+ "           WHERE title = $1 AND company_handle = $2".

Definition create_insert_sql : string :=
  "INSERT INTO jobs" +:+ nl +:+ "           (title, salary, equity, company_handle )"
    +:+ nl +:+ "           VALUES ($1, $2, $3, $4)" +:+ nl
    +:+ "           RETURNING id, title, salary, equity, company_handle as " +:+ dquote
    +:+ "companyHandle" +:+ dquote.

Definition get_sql : string :=
  "SELECT id, title, salary, equity, company_handle AS " +:+ dquote +:+ "companyHandle"
    +:+ dquote +:+ nl +:+ "           FROM jobs" +:+ nl +:+ "           WHERE id = $1".

Definition update_sql_set : string :=
  "UPDATE jobs " +:+ nl +:+ "                      SET ".

Definition update_sql_where : string :=
  " " +:+ nl +:+ "                      WHERE id = ".

Definition update_sql_returning : string :=
  " " +:+ nl
    +:+ "                      RETURNING id, title, salary, equity, company_handle AS "
    +:+ dquote +:+ "companyHandle" +:+ dquote.

Definition remove_sql : string :=
  "DELETE" +:+ nl +:+ "           FROM jobs" +:+ nl +:+ "           WHERE id = $1"
    +:+ nl +:+ "           RETURNING id".

(** [create({ title, salary, equity, companyHandle })] *)
Definition create (data : jsobject) : async jsval :=
  let title := prop data "title" in
  let salary := prop data "salary" in
  let equity := prop data "equity" in
  let companyHandle := prop data "companyHandle" in
  await (db_query create_check_sql (lit [title; companyHandle])) (λ duplicateCheck,
    match first_row duplicateCheck with
    | Some _ =>
        Reject (BadRequest [Text "Duplicate job title: "; Interp title;
                            Text " for company: "; Interp companyHandle])
    | None =>
        await (db_query create_insert_sql (lit [title; salary; equity; companyHandle]))
          (λ result, Return (first_value result))
    end).

(** [findAll(queries = {})], with the statement of [Job.findAll_query]. *)
Definition findAll (queries : option (gmap string jsval)) : async (list jsobject) :=
  then_ (lift (Job.findAll_query (default ∅ queries)))
    (λ '(text, queryValues), await (db_query text queryValues) Return).

(** [get(jobId)] *)
Definition get (jobId : jsval) : async jsobject :=
  await (db_query get_sql (lit [jobId])) (λ jobRes,
    match first_row jobRes with
    | None => Reject (NotFound [Text "No job with id: "; Interp jobId])
    | Some job => Return job
    end).

(** The statement of [update], from [setCols] and [jobIdVarIdx]. *)
Definition update_sql (setCols jobIdVarIdx : string) : string :=
  update_sql_set +:+ setCols +:+ update_sql_where +:+ jobIdVarIdx +:+ update_sql_returning.

(** [update(jobId, data)] *)
Definition update (jobId : jsval) (data : jsobject) : async jsobject :=
  if has "id" data || has "company_handle" data
  then Reject (Raised (BadRequestError "Updating id or company_handle is not allowed"))
  else
    then_ (lift (Sql.sqlForPartialUpdate1 data)) (λ c,
      let jobIdVarIdx := "$" +:+ pretty (length (Sql.values c) + 1) in
      let querySql := update_sql (Sql.setCols c) jobIdVarIdx in
      await (db_query querySql (lit (Sql.values c ++ [jobId]))) (λ result,
        match first_row result with
        | None => Reject (NotFound [Text "No job with id: "; Interp jobId])
        | Some job => Return job
        end)).

(** [remove(jobId)] *)
Definition remove (jobId : jsval) : async jsval :=
  await (db_query remove_sql (lit [jobId])) (λ result,
    match first_row result with
    | None => Reject (NotFound [Text "No job with id: "; Interp jobId])
    | Some _ => Return (JObj [("deleted", jobId)])
    end).

(** How a run of [update] ends once its statement has been awaited. *)
Definition update_end (w : world) (jobId : jsval) (text : string) (params : list Job.param)
  : failure + jsobject :=
  match w _ [] (db_query text params) with
  | Fulfilled (job :: _) => inr job
  | Fulfilled [] => inl (NotFound [Text "No job with id: "; Interp jobId])
  | Rejected reason => inl (External reason)
  end.

(** The statement of [update] for an object with the given keys. *)
Definition update_text (keys : list string) : string :=
  update_sql (join ", " (imap (Sql.fragment ∅) keys)) ("$" +:+ pretty (length keys + 1)).

End JobDb.

(** ** models/user.js *)

Module User.
Import Async.

Definition nl : string := Job.nl.
Definition lit (vs : list jsval) : list Job.param := Job.Lit <$> vs.

Definition authenticate_sql : string :=
  "SELECT username," +:+ nl +:+ "                  password," +:+ nl
    +:+ "                  first_name AS " +:+ dquote +:+ "firstName" +:+ dquote
    +:+ "," +:+ nl +:+ "                  last_name AS " +:+ dquote +:+ "lastName"
    +:+ dquote +:+ "," +:+ nl +:+ "                  email," +:+ nl
    +:+ "                  is_admin AS " +:+ dquote +:+ "isAdmin" +:+ dquote +:+ nl
    +:+ "           FROM users" +:+ nl +:+ "           WHERE username = $1".

Definition register_check_sql : string :=
  "SELECT username" +:+ nl +:+ "           FROM users" +:+ nl
    +:+ "           WHERE username = $1".

Definition register_insert_sql : string :=
  "INSERT INTO users" +:+ nl +:+ "           (username," +:+ nl
    +:+ "            password," +:+ nl +:+ "            first_name," +:+ nl
    +:+ "            last_name," +:+ nl +:+ "            email," +:+ nl
    +:+ "            is_admin)" +:+ nl +:+ "           VALUES ($1, $2, $3, $4, $5, $6)"
    +:+ nl +:+ "           RETURNING username, first_name AS " +:+ dquote
    +:+ "firstName" +:+ dquote +:+ ", last_name AS " +:+ dquote +:+ "lastName"
    +:+ dquote +:+ ", email, is_admin AS " +:+ dquote +:+ "isAdmin" +:+ dquote.

Definition update_sql_set : string :=
  "UPDATE users " +:+ nl +:+ "                      SET ".

Definition update_sql_where : string :=
  " " +:+ nl +:+ "                      WHERE username = ".

Definition update_sql_returning : string :=
  " " +:+ nl +:+ "                      RETURNING username," +:+ nl
    +:+ "                                first_name AS " +:+ dquote +:+ "firstName"
    +:+ dquote +:+ "," +:+ nl +:+ "                                last_name AS "
    +:+ dquote +:+ "lastName" +:+ dquote +:+ "," +:+ nl
    +:+ "                                email," +:+ nl
    +:+ "                                is_admin AS " +:+ dquote +:+ "isAdmin"
    +:+ dquote.

Definition apply_job_sql : string :=
  "SELECT id FROM jobs WHERE id = $1".

Definition apply_check_sql : string :=
  "SELECT * FROM applications " +:+ nl
    +:+ "        WHERE username = $1 AND job_id = $2".

Definition apply_insert_sql : string :=
  nl +:+ "      INSERT INTO applications (username, job_id)" +:+ nl
    +:+ "      VALUES ($1, $2)" +:+ nl +:+ "      RETURNING username, job_id as "
    +:+ dquote +:+ "jobId" +:+ dquote +:+ nl +:+ "      ".

(** The translation table [update] passes to [sqlForPartialUpdate]. *)
Definition jsToSql : gmap string string :=
  {[ "firstName" := "first_name"; "lastName" := "last_name"; "isAdmin" := "is_admin" ]}.

Definition update_sql (setCols usernameVarIdx : string) : string :=
  update_sql_set +:+ setCols +:+ update_sql_where +:+ usernameVarIdx
    +:+ update_sql_returning.

Definition invalid_login {A} : async A :=
  Reject (Raised (UnauthorizedError (Some "Invalid username/password"))).

(** [authenticate(username, password)] *)
Definition authenticate (username password : jsval) : async jsobject :=
  await (db_query authenticate_sql (lit [username])) (λ result,
    match first_row result with
    | Some user =>
        await (bcrypt_compare password (prop user "password")) (λ isValid,
          if isValid then Return (delete_prop user "password") else invalid_login)
    | None => invalid_login
    end).

(** [apply(username, jobId)] *)
Definition apply (username jobId : jsval) : async jsval :=
  await (Promise_all (db_query apply_job_sql (lit [jobId]))
                     (db_query apply_check_sql (lit [username; jobId])))
    (λ '(jobResults, applicationResults),
      if bool_decide (length jobResults = 0)
      then Reject (BadRequest [Text "Job id of "; Interp jobId; Text " does not exist."])
      else if bool_decide (0 < length applicationResults)
      then Reject (BadRequest [Interp username; Text " has already applied for this job."])
      else
        await (db_query apply_insert_sql (lit [username; jobId]))
          (λ result, Return (first_value result))).

Section Bcrypt.
(** [BCRYPT_WORK_FACTOR] of [config.js]. *)
Context (BCRYPT_WORK_FACTOR : Z).

(** [register({ username, password, firstName, lastName, email, isAdmin })] *)
Definition register (data : jsobject) : async jsval :=
  let username := prop data "username" in
  let password := prop data "password" in
  let firstName := prop data "firstName" in
  let lastName := prop data "lastName" in
  let email := prop data "email" in
  let isAdmin := prop data "isAdmin" in
  await (db_query register_check_sql (lit [username])) (λ duplicateCheck,
    match first_row duplicateCheck with
    | Some _ => Reject (BadRequest [Text "Duplicate username: "; Interp username])
    | None =>
        await (bcrypt_hash password BCRYPT_WORK_FACTOR) (λ hashedPassword,
          await (db_query register_insert_sql
                   (lit [username; JStr hashedPassword; firstName; lastName; email; isAdmin]))
            (λ result, Return (first_value result)))
    end).

(** [update] once [data.password] holds what is to be stored. *)
Definition update_with (username : jsval) (data : jsobject) : async jsobject :=
  then_ (lift (Sql.sqlForPartialUpdate data jsToSql)) (λ c,
    let usernameVarIdx := "$" +:+ pretty (length (Sql.values c) + 1) in
    let querySql := update_sql (Sql.setCols c) usernameVarIdx in
    await (db_query querySql (lit (Sql.values c ++ [username]))) (λ result,
      match first_row result with
      | None => Reject (NotFound [Text "No user: "; Interp username])
      | Some user => Return (delete_prop user "password")
      end)).

(** [update(username, data)]; the assignment to [data.password] changes the
    caller's object, which is passed on here. *)
Definition update (username : jsval) (data : jsobject) : async jsobject :=
  if truthy (prop data "password")
  then
    await (bcrypt_hash (prop data "password") BCRYPT_WORK_FACTOR) (λ hashed,
      update_with username (assign data "password" (JStr hashed)))
  else update_with username data.
End Bcrypt.

End User.

(** ** routes/jobs.js *)

Module JobsRoutes.
Import Async.

(** What a route hands back: a JSON response, or [next(err)]. *)
Inductive reply : Type :=
  | Json (status : nat) (body : jsval)
  | NextErr (err : failure).

(** The guards listed before the handler. *)
Definition guarded (guards : list (option Auth.payload → Auth.outcome))
    (locals_user : option Auth.payload) (handler : async reply) : async reply :=
  match Token.chain guards locals_user with
  | Auth.Next => handler
  | Auth.NextErr err => Return (NextErr (Raised err))
  end.

(** [try { ... } catch (err) { return next(err); }] *)
Definition handler (body : async reply) : async reply :=
  try_catch body (λ err, Return (NextErr err)).

(** [if (!validator.valid) throw new BadRequestError(errs)], from the
    stacks of the validator's errors. *)
Definition check (errs : list string) : async () :=
  match errs with
  | [] => Return ()
  | _ => Reject (BadRequestAll errs)
  end.

Definition admin_only : list (option Auth.payload → Auth.outcome) :=
  [Auth.ensureLoggedIn; Auth.ensureAdmin].

Section Schemas.
(** [jsonschema.validate(body, schema).errors.map(e => e.stack)] for the two
    schemas of [schemas/]; the library's [valid] is true exactly when there
    are no errors. *)
Context (jobNewSchema jobUpdateSchema : jsobject → list string).

(** [POST /] *)
Definition post (locals_user : option Auth.payload) (req_body : jsobject) : async reply :=
  guarded admin_only locals_user
    (handler
       (then_ (check (jobNewSchema req_body)) (λ _,
        then_ (JobDb.create req_body) (λ job,
        Return (Json 201 (JObj [("job", job)])))))).

(** [PATCH /:id] *)
Definition patch (locals_user : option Auth.payload) (params_id : string)
    (req_body : jsobject) : async reply :=
  guarded admin_only locals_user
    (handler
       (then_ (check (jobUpdateSchema req_body)) (λ _,
        then_ (JobDb.update (JStr params_id) req_body) (λ job,
        Return (Json 200 (JObj [("job", JObj job)])))))).
End Schemas.

(** [GET /] *)
Definition get_all (req_query : gmap string jsval) : async reply :=
  handler
    (then_ (JobDb.findAll (Some req_query)) (λ jobs,
     Return (Json 200 (JObj [("jobs", JArr (JObj <$> jobs))])))).

(** [GET /:id] *)
Definition get_one (params_id : string) : async reply :=
  handler
    (then_ (JobDb.get (JStr params_id)) (λ job,
     Return (Json 200 (JObj [("job", JObj job)])))).

(** [DELETE /:id] *)
Definition delete_one (locals_user : option Auth.payload) (params_id : string) : async reply :=
  guarded admin_only locals_user
    (handler
       (then_ (JobDb.remove (JStr params_id)) (λ _,
        Return (Json 200 (JObj [("deleted", JStr params_id)]))))).

End JobsRoutes.

(** * Examples from the test suite and the specification *)

Example sql_test_basic :
  Sql.sqlForPartialUpdate
    [("firstName", JStr "Aliya"); ("age", JNum 32)]
    {[ "firstName" := "first_name"; "age" := "age" ]}
  = Ok {| Sql.setCols := dquote +:+ "first_name" +:+ dquote +:+ "=$1, "
                         +:+ dquote +:+ "age" +:+ dquote +:+ "=$2";
          Sql.values := [JStr "Aliya"; JNum 32] |}.
Proof. vm_compute. reflexivity. Qed.

Example sql_test_different_fields :
  Sql.setCols <$> Sql.sqlForPartialUpdate
    [("firstName", JStr "Aliya"); ("age", JNum 32); ("email", JStr "aliya@gmail.com")]
    {[ "firstName" := "first_name"; "age" := "age" ]}
  = Ok (dquote +:+ "first_name" +:+ dquote +:+ "=$1, "
        +:+ dquote +:+ "age" +:+ dquote +:+ "=$2, "
        +:+ dquote +:+ "email" +:+ dquote +:+ "=$3").
Proof. vm_compute. reflexivity. Qed.

Example findAll_soft_eng :
  Job.findAll_filters {[ "title" := JStr "soft eng" ]}
  = Ok {| Job.queryFilters := ["title ILIKE $1"; "title ILIKE $2"];
          Job.queryValues := [Job.Lit (JStr "%soft%"); Job.Lit (JStr "%eng%")] |}.
Proof. vm_compute. reflexivity. Qed.

Example findAll_all_criteria :
  Job.findAll_filters
    {[ "title" := JStr "j1"; "minSalary" := JStr "40000"; "hasEquity" := JStr "true" ]}
  = Ok {| Job.queryFilters :=
            ["title ILIKE $1"; "salary >= $2 "; "equity > $3 AND equity IS NOT NULL"];
          Job.queryValues :=
            [Job.Lit (JStr "%j1%"); Job.NumberOf (JStr "40000"); Job.Lit (JNum 0)] |}.
Proof. vm_compute. reflexivity. Qed.

Example findAll_no_filter :
  Job.findAll_filters ∅ = Ok Job.no_filters
  ∧ Job.whereClause (Job.queryFilters Job.no_filters) = EmptyString.
Proof. split; vm_compute; reflexivity. Qed.

Example stated_words_soft_eng : Stated.words "soft  eng " = ["soft"; "eng"].
Proof. reflexivity. Qed.

Example stated_requireAdmin_ordinary :
  Stated.requireAdmin None
  ∧ Stated.requireAdmin (Some {| Auth.username := Some "u1"; Auth.isAdmin := Some false |})
  ∧ Stated.requireAdmin (Some {| Auth.username := Some "admin"; Auth.isAdmin := Some true |}).
Proof.
  split; [|split].
  - split; [intros _; by eexists|]. split; intros (p & name & Hp & _); discriminate.
  - split; [intros Hno; exfalso; apply Hno; by eexists _, _|].
    split; [intros _ _; by eexists|]. intros _ (p & [= <-] & Hadm). discriminate.
  - split; [intros Hno; exfalso; apply Hno; by eexists _, _|].
    split; [intros _ (p & [= <-] & Hadm); discriminate|]. intros _ _. reflexivity.
Qed.

(** Unfolds the monad operations of [result]. *)
Ltac unfold_result := unfold mbind, result_bind, fmap, result_fmap.

(** * Properties of [sqlForPartialUpdate] *)

Section SqlFacts.
Import Sql.
Implicit Types (dataToUpdate : jsobject) (jsToSql : gmap string string).

Lemma Object_keys_lookup dataToUpdate n key v :
  dataToUpdate !! n = Some (key, v) → Object_keys dataToUpdate !! n = Some key.
Proof. intros H. unfold Object_keys. by rewrite list_lookup_fmap, H. Qed.

Lemma Object_values_lookup dataToUpdate n key v :
  dataToUpdate !! n = Some (key, v) → Object_values dataToUpdate !! n = Some v.
Proof. intros H. unfold Object_values. by rewrite list_lookup_fmap, H. Qed.

Lemma cols_lookup dataToUpdate jsToSql n key v :
  dataToUpdate !! n = Some (key, v) →
  cols dataToUpdate jsToSql !! n = Some (fragment jsToSql n key).
Proof.
  intros H. unfold cols.
  by rewrite list_lookup_imap, (Object_keys_lookup _ _ _ _ H).
Qed.

Lemma cols_length dataToUpdate jsToSql :
  length (cols dataToUpdate jsToSql) = length (Object_keys dataToUpdate).
Proof. unfold cols. apply length_imap. Qed.

Lemma Object_values_length dataToUpdate :
  length (Object_values dataToUpdate) = length (Object_keys dataToUpdate).
Proof. unfold Object_values, Object_keys. by rewrite !length_fmap. Qed.

Lemma column_own jsToSql key entry :
  jsToSql !! key = Some entry → entry ≠ EmptyString → column jsToSql key = entry.
Proof.
  intros Hk Hne. unfold column, get. rewrite Hk.
  destruct (String.eqb_spec entry EmptyString); congruence.
Qed.

Lemma column_own_empty jsToSql key :
  jsToSql !! key = Some EmptyString → column jsToSql key = key.
Proof. intros Hk. unfold column, get. by rewrite Hk. Qed.

Lemma column_absent jsToSql key :
  jsToSql !! key = None → inherited key = false → column jsToSql key = key.
Proof.
  intros Hk Hin. unfold column, get. rewrite Hk.
  unfold inherited in Hin. apply bool_decide_eq_false in Hin.
  destruct (assoc key Object_prototype) as [text|]; [|done].
  exfalso. apply Hin. by exists text.
Qed.

Lemma sqlForPartialUpdate_nonempty dataToUpdate jsToSql :
  dataToUpdate ≠ [] →
  sqlForPartialUpdate dataToUpdate jsToSql
  = Ok {| setCols := join ", " (cols dataToUpdate jsToSql);
          values := Object_values dataToUpdate |}.
Proof.
  intros Hne. unfold sqlForPartialUpdate.
  destruct dataToUpdate as [|kv rest]; [done|].
  by case_decide.
Qed.


End SqlFacts.

(** C1 (as amended).  For a non-empty [dataToUpdate] and any table the
    builder returns, with one fragment per key in key order: the fragment
    at (zero-based) index [n] is ["<column>"=$(n+1)], where [<column>] is
    the table's entry for the key when that entry is a non-empty string,
    and the key itself when the entry is the empty string or when there is
    no entry and the key is not the name of a member inherited from
    [Object.prototype]; the parameter at index [n] is the key's value. *)
Theorem sqlForPartialUpdate_fragments
    (dataToUpdate : jsobject) (jsToSql : gmap string string) :
  dataToUpdate ≠ [] →
  ∃ c, Sql.sqlForPartialUpdate dataToUpdate jsToSql = Ok c
     ∧ Sql.setCols c = join ", " (Sql.cols dataToUpdate jsToSql)
     ∧ length (Sql.cols dataToUpdate jsToSql) = length (Object_keys dataToUpdate)
     ∧ length (Sql.values c) = length (Object_keys dataToUpdate)
     ∧ ∀ n key v, dataToUpdate !! n = Some (key, v) →
         Sql.values c !! n = Some v
         ∧ ∃ col,
             Sql.cols dataToUpdate jsToSql !! n
             = Some (dquote +:+ col +:+ dquote +:+ "=$" +:+ pretty (n + 1))
             ∧ (∀ entry, jsToSql !! key = Some entry → entry ≠ EmptyString → col = entry)
             ∧ (jsToSql !! key = Some EmptyString → col = key)
             ∧ (jsToSql !! key = None → Sql.inherited key = false → col = key).
Proof.
  intros Hne. eexists. split; [by apply sqlForPartialUpdate_nonempty|]. simpl.
  split; [done|]. split; [apply cols_length|]. split; [apply Object_values_length|].
  intros n key v Hn. split; [by eapply Object_values_lookup|].
  exists (Sql.column jsToSql key). split; [by erewrite cols_lookup|].
  split; [|split].
  - apply column_own.
  - apply column_own_empty.
  - apply column_absent.
Qed.

Lemma sqlForPartialUpdate_fragments_witness :
  ∃ c, Sql.sqlForPartialUpdate
         [("firstName", JStr "Aliya"); ("age", JNum 32)] {[ "firstName" := "first_name" ]}
       = Ok c
     ∧ Sql.values c !! 1 = Some (JNum 32)
     ∧ Sql.cols [("firstName", JStr "Aliya"); ("age", JNum 32)]
                {[ "firstName" := "first_name" ]} !! 1
       = Some (dquote +:+ "age" +:+ dquote +:+ "=$2").
Proof.
  destruct (sqlForPartialUpdate_fragments
              [("firstName", JStr "Aliya"); ("age", JNum 32)]
              {[ "firstName" := "first_name" ]})
    as (c & Hc & _ & _ & _ & Hn); [discriminate|].
  exists c. split; [exact Hc|].
  destruct (Hn 1 "age" (JNum 32) eq_refl) as (Hv & col & Hcol & _ & _ & Habs).
  split; [exact Hv|].
  rewrite Hcol. rewrite (Habs eq_refl eq_refl). reflexivity.
Defined.

(** C1 fails as stated: an entry that is the empty string is not used as
    the column, and a key without an entry that names an inherited member
    is not used verbatim. *)
Lemma sqlForPartialUpdate_as_stated_fails :
  ¬ Stated.partial_update [("firstName", JStr "Aliya")] {[ "firstName" := EmptyString ]}
  ∧ ¬ Stated.partial_update [("constructor", JNum 1)] ∅.
Proof.
  split; intros (c & _ & _ & H).
  - destruct (H 0 "firstName" (JStr "Aliya") eq_refl) as [Hf _].
    vm_compute in Hf. discriminate.
  - destruct (H 0 "constructor" (JNum 1) eq_refl) as [Hf _].
    vm_compute in Hf. discriminate.
Qed.

(** C9.  On the empty [dataToUpdate] the builder throws
    [BadRequestError("No data")], whatever the table; it returns nothing. *)
Theorem sqlForPartialUpdate_empty_no_data (jsToSql : gmap string string) :
  Sql.sqlForPartialUpdate [] jsToSql = Throw (BadRequestError "No data")
  ∧ ¬ returns (Sql.sqlForPartialUpdate [] jsToSql).
Proof.
  split; [reflexivity|]. intros [c Hc]. discriminate.
Qed.

(** * Properties of the authorization middleware *)

Section AuthFacts.
Import Auth.
Implicit Types (user : option payload) (p : payload) (ref : string).

Lemma ensureOwnerOrAdmin_some p ref :
  ensureOwnerOrAdmin (Some p) ref
  = if flag (isAdmin p) || bool_decide (username p = Some ref)
    then Next
    else NextErr (ForbiddenError "You do not have permission to access this resource").
Proof.
  unfold ensureOwnerOrAdmin, try_next, read. simpl.
  destruct (flag (isAdmin p)); [done|]. simpl.
  by destruct (bool_decide (username p = Some ref)).
Qed.

Lemma flag_true (b : option bool) : flag b = true ↔ b = Some true.
Proof. destruct b as [[]|]; simpl; split; congruence. Qed.

(** An actor that is attached to the request, is not an admin and is not the
    owner is refused with [ForbiddenError]; the owner passes. *)
Lemma ensureOwnerOrAdmin_authenticated p ref :
  isAdmin p ≠ Some true →
  (username p ≠ Some ref → forbidden (ensureOwnerOrAdmin (Some p) ref))
  ∧ (username p = Some ref → allowed (ensureOwnerOrAdmin (Some p) ref)).
Proof.
  intros Hadm. rewrite ensureOwnerOrAdmin_some.
  destruct (flag (isAdmin p)) eqn:Hf; [by apply flag_true in Hf|]. simpl.
  split; intros Hu.
  - rewrite bool_decide_eq_false_2 by done. by eexists.
  - by rewrite bool_decide_eq_true_2.
Qed.

Lemma ensureLoggedIn_some p : ensureLoggedIn (Some p) = Next.
Proof. reflexivity. Qed.

Lemma ensureLoggedIn_none : ensureLoggedIn None = NextErr (UnauthorizedError None).
Proof. reflexivity. Qed.

End AuthFacts.

(** C3.  With no actor attached to the request ([res.locals.user]
    undefined), [ensureOwnerOrAdmin] reads [isAdmin] of [undefined]: the
    error it passes on is the runtime's [TypeError], not [ForbiddenError]. *)
Theorem ensureOwnerOrAdmin_anonymous_type_error (params_username : string) :
  Auth.ensureOwnerOrAdmin None params_username = Auth.NextErr TypeError
  ∧ ¬ Auth.forbidden (Auth.ensureOwnerOrAdmin None params_username).
Proof.
  split; [reflexivity|]. intros [m Hm]. discriminate.
Qed.

(** C4.  An actor whose [isAdmin] is true passes [ensureOwnerOrAdmin] for
    every owner reference, whatever the actor's own username (even none):
    the admin flag is looked at first and settles the matter. *)
Theorem ensureOwnerOrAdmin_admin_allowed (p : Auth.payload) (params_username : string) :
  Auth.isAdmin p = Some true →
  Auth.ensureOwnerOrAdmin (Some p) params_username = Auth.Next.
Proof.
  intros Hadm. rewrite ensureOwnerOrAdmin_some.
  by rewrite (proj2 (flag_true _) Hadm).
Qed.

Lemma ensureOwnerOrAdmin_admin_allowed_witness :
  Auth.ensureOwnerOrAdmin
    (Some {| Auth.username := Some "admin"; Auth.isAdmin := Some true |}) "u1"
  = Auth.Next.
Proof.
  apply (ensureOwnerOrAdmin_admin_allowed
           {| Auth.username := Some "admin"; Auth.isAdmin := Some true |} "u1").
  reflexivity.
Defined.

(** C5 (as amended).  [ensureAdmin] tells its two refusals apart by
    whether an actor object is attached to the request, not by the actor's
    username: with no actor attached ([res.locals.user] undefined) it
    passes on [UnauthorizedError]; with an actor attached whose [isAdmin]
    is not true, [ForbiddenError]; with an actor attached whose [isAdmin]
    is true it calls [next()].  The username of an attached actor, present
    or not, makes no difference. *)
Theorem ensureAdmin_failure_kinds :
  Auth.unauthorized (Auth.ensureAdmin None)
  ∧ ¬ Auth.forbidden (Auth.ensureAdmin None)
  ∧ (∀ p, Auth.isAdmin p ≠ Some true →
       Auth.forbidden (Auth.ensureAdmin (Some p))
       ∧ ¬ Auth.unauthorized (Auth.ensureAdmin (Some p)))
  ∧ (∀ p, Auth.isAdmin p = Some true → Auth.allowed (Auth.ensureAdmin (Some p)))
  ∧ (∀ p name,
       Auth.ensureAdmin (Some {| Auth.username := name; Auth.isAdmin := Auth.isAdmin p |})
       = Auth.ensureAdmin (Some p)).
Proof.
  split; [by eexists|]. split; [intros [m Hm]; discriminate|].
  split; [|split; [|done]]; intros p Hadm; unfold Auth.ensureAdmin, Auth.try_next.
  - destruct (Auth.flag (Auth.isAdmin p)) eqn:Hf; [by apply flag_true in Hf|].
    split; [by eexists|]. intros [m Hm]. discriminate.
  - by rewrite (proj2 (flag_true _) Hadm).
Qed.

Lemma ensureAdmin_failure_kinds_witness :
  Auth.forbidden
    (Auth.ensureAdmin (Some {| Auth.username := Some "u1"; Auth.isAdmin := Some false |}))
  ∧ Auth.allowed
      (Auth.ensureAdmin (Some {| Auth.username := Some "admin"; Auth.isAdmin := Some true |})).
Proof.
  destruct ensureAdmin_failure_kinds as (_ & _ & Hforbid & Hallow & _).
  split.
  - apply (Hforbid {| Auth.username := Some "u1"; Auth.isAdmin := Some false |}).
    discriminate.
  - apply (Hallow {| Auth.username := Some "admin"; Auth.isAdmin := Some true |}).
    reflexivity.
Defined.

(** C5 fails as stated: an attached actor object without a username is
    anonymous in the specification's sense, yet with [isAdmin] true it is
    let through, and with [isAdmin] false it gets [ForbiddenError], not
    [UnauthorizedError]. *)
Lemma ensureAdmin_as_stated_fails :
  ¬ Stated.requireAdmin (Some {| Auth.username := None; Auth.isAdmin := Some true |})
  ∧ ¬ Stated.requireAdmin (Some {| Auth.username := None; Auth.isAdmin := Some false |}).
Proof.
  split; intros [Hanon _];
    (destruct Hanon as [m Hm];
     [intros (p & name & [= <-] & Hname); discriminate|discriminate]).
Qed.

(** C10 (as amended).  [ensureLoggedIn] calls [next()] exactly when an actor
    object is attached to the request ([res.locals.user] is set), whether or
    not that object carries a username, and passes on [UnauthorizedError]
    otherwise. *)
Theorem ensureLoggedIn_allows_attached_actor (locals_user : option Auth.payload) :
  (Auth.allowed (Auth.ensureLoggedIn locals_user) ↔ is_Some locals_user)
  ∧ (locals_user = None → Auth.unauthorized (Auth.ensureLoggedIn locals_user)).
Proof.
  destruct locals_user as [p|]; unfold Auth.allowed; simpl.
  - split; [|done]. split; [by eexists|done].
  - split; [|by eexists]. split; [done|]. by intros [? ?].
Qed.

Lemma ensureLoggedIn_allows_attached_actor_witness :
  Auth.allowed
    (Auth.ensureLoggedIn (Some {| Auth.username := Some "u1"; Auth.isAdmin := Some false |}))
  ∧ Auth.unauthorized (Auth.ensureLoggedIn None).
Proof.
  split.
  - apply (ensureLoggedIn_allows_attached_actor
             (Some {| Auth.username := Some "u1"; Auth.isAdmin := Some false |})).
    by eexists.
  - apply (ensureLoggedIn_allows_attached_actor None). reflexivity.
Defined.

(** C10 fails as stated: an attached actor object without a username passes. *)
Lemma ensureLoggedIn_as_stated_fails :
  ¬ Stated.requireAuthenticated
      (Some {| Auth.username := None; Auth.isAdmin := Some false |}).
Proof.
  intros [Hiff _].
  destruct (proj1 Hiff eq_refl) as (p & name & Hp & Hname).
  injection Hp as <-. discriminate.
Qed.

(** * Properties of [Job.findAll] *)

Section JobFacts.
Import Job.
Implicit Types (queries : gmap string jsval) (st : filters) (words : list string).

(** ** [split(" ")] *)



(** ** The pushes *)

Lemma push_balanced text v st : balanced st → balanced (push text v st).
Proof. unfold balanced, push. simpl. rewrite !length_app. simpl. lia. Qed.

Lemma push_queryFilters text v st :
  balanced st → queryFilters (push text v st) = push_text text (queryFilters st).
Proof. unfold balanced, push, push_text. simpl. by intros ->. Qed.

(** The loop over the words, from any state of the two arrays. *)
Lemma foldl_push_word words st :
  foldl push_word st words
  = {| queryFilters :=
         queryFilters st
         ++ imap (λ i _, title_text (pretty (length (queryValues st) + i + 1))) words;
       queryValues := queryValues st ++ (wildcard <$> words) |}.
Proof.
  revert st. induction words as [|w ws IH]; intros st; simpl.
  - rewrite !app_nil_r. by destruct st.
  - rewrite IH. unfold push_word, push. simpl.
    rewrite length_app, <- !app_assoc. simpl.
    f_equal. f_equal. f_equal.
    + by rewrite Nat.add_0_r.
    + apply imap_ext. intros i x _. simpl. do 2 f_equal. lia.
Qed.

Lemma foldl_push_word_empty words :
  foldl push_word no_filters words = title_filters words.
Proof. by rewrite foldl_push_word. Qed.

Lemma title_filters_balanced words : balanced (title_filters words).
Proof. unfold balanced. simpl. by rewrite length_imap, length_fmap. Qed.


(** ** The three steps *)




Lemma title_step_balanced title st :
  title_step title no_filters = Ok st → balanced st.
Proof.
  unfold title_step. destruct (truthy title).
  - destruct title; simpl; try discriminate.
    intros [= <-]. rewrite foldl_push_word_empty. apply title_filters_balanced.
  - by intros [= <-].
Qed.

Lemma salary_step_balanced minSalary st : balanced st → balanced (salary_step minSalary st).
Proof. unfold salary_step. destruct (not_null minSalary); [apply push_balanced|done]. Qed.

Lemma equity_step_balanced b st : balanced st → balanced (equity_step b st).
Proof. unfold equity_step. destruct b; [apply push_balanced|done]. Qed.



Lemma findAll_filters_steps queries :
  findAll_filters queries
  = (λ st, equity_step (strict_eq_str (hasEquity_of queries) "true")
             (salary_step (minSalary_of queries) st))
    <$> title_step (title_of queries) no_filters.
Proof.
  unfold findAll_filters. unfold_result.
  by destruct (title_step (title_of queries) no_filters).
Qed.

Lemma findAll_filters_balanced queries st :
  findAll_filters queries = Ok st → balanced st.
Proof.
  rewrite findAll_filters_steps. unfold_result.
  destruct (title_step _ _) as [st1|] eqn:Ht; [|done].
  intros [= <-]. apply equity_step_balanced, salary_step_balanced.
  by eapply title_step_balanced.
Qed.

(** ** Reading the criteria *)






End JobFacts.

Section FilterText.
Import Job.
Implicit Types (queries : gmap string jsval) (st : filters).

(** The texts the two later steps add are fixed by the lengths alone. *)
Lemma steps_texts st minSalary b :
  balanced st →
  queryFilters (equity_step b (salary_step minSalary st))
  = let fs2 := if not_null minSalary
               then push_text salary_text (queryFilters st) else queryFilters st in
    if b then push_text equity_text fs2 else fs2.
Proof.
  intros Hst. pose proof (salary_step_balanced minSalary st Hst) as Hbal.
  unfold equity_step. destruct b.
  - rewrite push_queryFilters by done. simpl. f_equal.
    unfold salary_step. destruct (not_null minSalary); [|done].
    by rewrite push_queryFilters.
  - simpl. unfold salary_step. destruct (not_null minSalary); [|done].
    by rewrite push_queryFilters.
Qed.

(** The predicate texts of [findAll] are a function of the number of words
    of the title and of which of the other two criteria are active. *)
Lemma findAll_filters_texts queries :
  queryFilters <$> findAll_filters queries
  = (λ n, filter_texts n (not_null (minSalary_of queries))
                       (strict_eq_str (hasEquity_of queries) "true"))
    <$> word_count (title_of queries).
Proof.
  rewrite findAll_filters_steps. unfold word_count, title_step.
  destruct (truthy (title_of queries)) eqn:Ht.
  - destruct (title_of queries) as [| | | |s| |]; try reflexivity.
    simpl. unfold_result. f_equal. rewrite foldl_push_word_empty.
    rewrite steps_texts by apply title_filters_balanced.
    unfold filter_texts. simpl.
    by rewrite (imap_seq_0 (split_space s) (λ i, title_text (pretty (i + 1)))).
  - simpl. unfold_result. f_equal. by rewrite steps_texts.
Qed.




End FilterText.

Section FilterLists.
Import Job.
Implicit Types (queries : gmap string jsval) (words : list string).







End FilterLists.











(** * Properties of [authenticateJWT] and of chains of guards *)

Open Scope list_scope.

Section TokenFacts.
Import Token.

Lemma strip_bearer_upper token : strip_bearer ("Bearer " +:+ token) = token.
Proof. reflexivity. Qed.

Lemma strip_bearer_lower token : strip_bearer ("bearer " +:+ token) = token.
Proof. reflexivity. Qed.

Lemma starts_with_prefix p s :
  starts_with p s = true → ∃ rest, s = p +:+ rest.
Proof.
  revert s. induction p as [|a p' IH]; intros s; [by exists s|].
  destruct s as [|b s']; simpl; [done|].
  intros [Hab Hrest]%andb_prop. apply Ascii.eqb_eq in Hab as ->.
  destruct (IH _ Hrest) as [rest ->]. by exists rest.
Qed.

Lemma strip_bearer_other s :
  (∀ rest, s ≠ "Bearer " +:+ rest) → (∀ rest, s ≠ "bearer " +:+ rest) →
  strip_bearer s = s.
Proof.
  intros Hupper Hlower. unfold strip_bearer.
  destruct (starts_with "Bearer " s) eqn:H1.
  { apply starts_with_prefix in H1 as [rest ->]. by destruct (Hupper rest). }
  destruct (starts_with "bearer " s) eqn:H2; [|done].
  apply starts_with_prefix in H2 as [rest ->]. by destruct (Hlower rest).
Qed.

Lemma trimStart_length s : (String.length (trimStart s) ≤ String.length s)%nat.
Proof.
  induction s as [|c rest IH]; [done|]. simpl.
  destruct (is_space c); simpl; lia.
Qed.

Lemma trimEnd_length s : (String.length (trimEnd s) ≤ String.length s)%nat.
Proof.
  induction s as [|c rest IH]; [done|]. simpl.
  destruct (trimEnd rest); simpl in *; [destruct (is_space c); simpl; lia|lia].
Qed.

Lemma trimStart_blank pad s : blank pad = true → trimStart (pad +:+ s) = trimStart s.
Proof.
  induction pad as [|c rest IH]; [done|]. simpl.
  intros [Hc Hrest]%andb_prop. rewrite Hc. by apply IH.
Qed.

Lemma trimStart_blank_only pad : blank pad = true → trimStart pad = EmptyString.
Proof.
  induction pad as [|c rest IH]; [done|]. simpl.
  intros [Hc Hrest]%andb_prop. rewrite Hc. by apply IH.
Qed.

Lemma trimEnd_blank_only pad : blank pad = true → trimEnd pad = EmptyString.
Proof.
  induction pad as [|c rest IH]; [done|]. simpl.
  intros [Hc Hrest]%andb_prop. by rewrite (IH Hrest), Hc.
Qed.

Lemma trimEnd_blank s pad : blank pad = true → trimEnd (s +:+ pad) = trimEnd s.
Proof.
  intros Hpad. induction s as [|c rest IH]; simpl.
  - by apply trimEnd_blank_only.
  - by rewrite IH.
Qed.

(** A string that [trim] leaves alone does not start with a blank. *)
Lemma trim_fixed_start c rest :
  trim (String c rest) = String c rest → is_space c = false.
Proof.
  unfold trim. simpl. destruct (is_space c); [|done]. intros Heq.
  pose proof (trimEnd_length (trimStart rest)) as H1.
  pose proof (trimStart_length rest) as H2.
  rewrite Heq in H1. simpl in H1. lia.
Qed.

Lemma trim_padded before token after :
  blank before = true → blank after = true → trim token = token →
  trim (before +:+ token +:+ after) = token.
Proof.
  intros Hb Ha Ht. unfold trim. rewrite trimStart_blank by done.
  destruct token as [|c rest].
  - change (EmptyString +:+ after) with after.
    by rewrite trimStart_blank_only.
  - pose proof (trim_fixed_start _ _ Ht) as Hc.
    unfold trim in Ht. simpl in Ht |- *. rewrite Hc in Ht |- *.
    change (String c (rest +:+ after)) with (String c rest +:+ after).
    by rewrite trimEnd_blank.
Qed.

End TokenFacts.

(** X1.  [authenticateJWT] never refuses a request: it always calls
    [next()] without an error.  And it attaches an actor only from a
    verified token: if [res.locals.user] holds [p] afterwards, then either
    it held [p] before, or the request has a non-empty [authorization]
    header whose token, after the prefix is removed and the rest trimmed,
    [jwt.verify] accepted as [p]. *)
Theorem authenticateJWT_only_verified
    (SECRET_KEY : string) (jwt_verify : string → string → option Auth.payload)
    (req_headers : option (gmap string string)) (locals_user : option Auth.payload) :
  (Token.authenticateJWT SECRET_KEY jwt_verify req_headers locals_user).2 = Auth.Next
  ∧ ∀ p, (Token.authenticateJWT SECRET_KEY jwt_verify req_headers locals_user).1 = Some p →
      locals_user = Some p
      ∨ ∃ header, (h ← req_headers; h !! "authorization") = Some header
          ∧ header ≠ EmptyString
          ∧ jwt_verify (Token.trim (Token.strip_bearer header)) SECRET_KEY = Some p.
Proof.
  unfold Token.authenticateJWT.
  destruct (h ← req_headers; h !! "authorization") as [header|]; [|by split; [|left]].
  destruct (String.eqb_spec header EmptyString) as [->|Hne]; simpl; [by split; [|left]|].
  destruct (jwt_verify _ SECRET_KEY) as [payload|] eqn:Hv; simpl; [|by split; [|left]].
  split; [done|]. intros p [= <-]. right. by exists header.
Qed.

Lemma authenticateJWT_only_verified_witness :
  None = Some {| Auth.username := Some "u1"; Auth.isAdmin := Some false |}
  ∨ ∃ header,
      (h ← Some ({[ "authorization" := "Bearer tok" ]} : gmap string string);
       h !! "authorization") = Some header
      ∧ header ≠ EmptyString
      ∧ (λ token _ : string,
           if String.eqb token "tok"
           then Some {| Auth.username := Some "u1"; Auth.isAdmin := Some false |}
           else None) (Token.trim (Token.strip_bearer header)) "secret"
        = Some {| Auth.username := Some "u1"; Auth.isAdmin := Some false |}.
Proof.
  apply (authenticateJWT_only_verified "secret"
           (λ token _, if String.eqb token "tok"
                       then Some {| Auth.username := Some "u1"; Auth.isAdmin := Some false |}
                       else None)
           (Some {[ "authorization" := "Bearer tok" ]}) None).
  reflexivity.
Defined.

(** X2.  The token handed to [jwt.verify] is what follows a leading
    [Bearer ] or [bearer ], with surrounding blanks removed: for a token
    without blanks at its ends, the headers [Bearer <blanks>token<blanks>]
    and [bearer <blanks>token<blanks>] both give the token itself.  Nothing
    else is taken for a prefix: a header that is such a token and begins
    with neither [Bearer ] nor [bearer ] is left as it is and handed over
    whole. *)
Theorem authenticateJWT_token_extracted (before after token : string) :
  Token.blank before = true → Token.blank after = true → Token.trim token = token →
  Token.trim (Token.strip_bearer ("Bearer " +:+ before +:+ token +:+ after)) = token
  ∧ Token.trim (Token.strip_bearer ("bearer " +:+ before +:+ token +:+ after)) = token
  ∧ ((∀ rest, token ≠ "Bearer " +:+ rest) → (∀ rest, token ≠ "bearer " +:+ rest) →
     Token.strip_bearer token = token
     ∧ Token.trim (Token.strip_bearer token) = token).
Proof.
  intros Hb Ha Ht. rewrite strip_bearer_upper, strip_bearer_lower.
  split; [by apply trim_padded|]. split; [by apply trim_padded|].
  intros Hupper Hlower. by rewrite strip_bearer_other.
Qed.

Lemma authenticateJWT_token_extracted_witness :
  Token.trim (Token.strip_bearer ("Bearer " +:+ "  " +:+ "BEARER abc.def" +:+ " "))
  = "BEARER abc.def"
  ∧ Token.trim (Token.strip_bearer ("bearer " +:+ "  " +:+ "BEARER abc.def" +:+ " "))
    = "BEARER abc.def"
  ∧ Token.strip_bearer "BEARER abc.def" = "BEARER abc.def"
  ∧ Token.trim (Token.strip_bearer "BEARER abc.def") = "BEARER abc.def".
Proof.
  destruct (authenticateJWT_token_extracted "  " " " "BEARER abc.def") as (Hu & Hl & Hother);
    [reflexivity|reflexivity|reflexivity|].
  split; [exact Hu|]. split; [exact Hl|].
  apply Hother; intros rest Heq; cbv [String.append] in Heq; discriminate Heq.
Defined.

(** X3.  With no actor attached beforehand, a request passes
    [authenticateJWT] followed by [ensureLoggedIn] exactly when it carries
    a non-empty [authorization] header whose extracted token [jwt.verify]
    accepts; every other request is refused with [UnauthorizedError]. *)
Theorem authenticateJWT_then_ensureLoggedIn
    (SECRET_KEY : string) (jwt_verify : string → string → option Auth.payload)
    (req_headers : option (gmap string string)) :
  let locals_user := (Token.authenticateJWT SECRET_KEY jwt_verify req_headers None).1 in
  (Auth.ensureLoggedIn locals_user = Auth.Next
   ↔ ∃ header p, (h ← req_headers; h !! "authorization") = Some header
       ∧ header ≠ EmptyString
       ∧ jwt_verify (Token.trim (Token.strip_bearer header)) SECRET_KEY = Some p)
  ∧ (Auth.ensureLoggedIn locals_user = Auth.Next
     ∨ Auth.ensureLoggedIn locals_user = Auth.NextErr (UnauthorizedError None)).
Proof.
  unfold Token.authenticateJWT.
  destruct (h ← req_headers; h !! "authorization") as [header|]; simpl.
  - destruct (String.eqb_spec header EmptyString) as [->|Hne]; simpl.
    + split; [|by right]. split; [done|]. by intros (? & ? & [= <-] & ? & _).
    + destruct (jwt_verify _ SECRET_KEY) as [payload|] eqn:Hv; simpl.
      * split; [|by left]. split; [|done]. intros _. by exists header, payload.
      * split; [|by right]. split; [done|].
        intros (? & ? & [= <-] & _ & Hv'). congruence.
  - split; [|by right]. split; [done|]. by intros (? & ? & ? & _).
Qed.

Lemma authenticateJWT_then_ensureLoggedIn_witness :
  Auth.ensureLoggedIn
    (Token.authenticateJWT "secret"
       (λ token _, if String.eqb token "tok"
                   then Some {| Auth.username := Some "u1"; Auth.isAdmin := Some false |}
                   else None)
       (Some {[ "authorization" := "Bearer tok" ]}) None).1
  = Auth.Next.
Proof.
  apply (authenticateJWT_then_ensureLoggedIn "secret"
           (λ token _, if String.eqb token "tok"
                       then Some {| Auth.username := Some "u1"; Auth.isAdmin := Some false |}
                       else None)
           (Some {[ "authorization" := "Bearer tok" ]})).
  exists "Bearer tok", {| Auth.username := Some "u1"; Auth.isAdmin := Some false |}.
  split; [reflexivity|]. split; [discriminate|reflexivity].
Defined.

(** X4.  The guards of the job routes that change data, [ensureLoggedIn]
    then [ensureAdmin]: the chain lets a request through exactly when
    [ensureAdmin] alone would; a request without an actor is stopped by
    [ensureLoggedIn], so the [UnauthorizedError] of [ensureAdmin] never
    comes out of the chain; an actor that is not an admin gets
    [ForbiddenError]. *)
Theorem admin_only_chain (locals_user : option Auth.payload) :
  (Token.chain JobsRoutes.admin_only locals_user = Auth.Next
   ↔ Auth.ensureAdmin locals_user = Auth.Next)
  ∧ (locals_user = None →
     Token.chain JobsRoutes.admin_only locals_user = Auth.NextErr (UnauthorizedError None))
  ∧ (∀ p, locals_user = Some p → Auth.isAdmin p ≠ Some true →
     Token.chain JobsRoutes.admin_only locals_user
     = Auth.NextErr (ForbiddenError "User must be admin"))
  ∧ (∀ p, locals_user = Some p → Auth.isAdmin p = Some true →
     Token.chain JobsRoutes.admin_only locals_user = Auth.Next).
Proof.
  destruct locals_user as [p|]; simpl.
  - unfold Auth.ensureAdmin, Auth.try_next.
    destruct (Auth.flag (Auth.isAdmin p)) eqn:Hf.
    + apply flag_true in Hf. repeat split; try done. by intros ? [= <-].
    + repeat split; try done.
      intros ? [= <-] Hadm. apply flag_true in Hadm. congruence.
  - repeat split; done.
Qed.

Lemma admin_only_chain_witness :
  Token.chain JobsRoutes.admin_only None = Auth.NextErr (UnauthorizedError None)
  ∧ Token.chain JobsRoutes.admin_only
      (Some {| Auth.username := Some "u1"; Auth.isAdmin := Some false |})
    = Auth.NextErr (ForbiddenError "User must be admin")
  ∧ Token.chain JobsRoutes.admin_only
      (Some {| Auth.username := Some "admin"; Auth.isAdmin := Some true |})
    = Auth.Next.
Proof.
  split; [|split].
  - apply (admin_only_chain None). reflexivity.
  - eapply (admin_only_chain (Some _)); [reflexivity|discriminate].
  - eapply (admin_only_chain (Some _)); reflexivity.
Defined.

(** X5.  When [ensureLoggedIn] runs before [ensureOwnerOrAdmin], the
    [TypeError] of the latter cannot occur: the chain ends in [next()],
    in an [UnauthorizedError] or in a [ForbiddenError]; and it lets the
    request through exactly when an actor is attached that is an admin or
    whose username is the one in the path. *)
Theorem ensureLoggedIn_then_ensureOwnerOrAdmin
    (locals_user : option Auth.payload) (params_username : string) :
  let outcome :=
    Token.chain [Auth.ensureLoggedIn; λ user, Auth.ensureOwnerOrAdmin user params_username]
      locals_user in
  outcome ≠ Auth.NextErr TypeError
  ∧ (outcome = Auth.Next ∨ Auth.unauthorized outcome ∨ Auth.forbidden outcome)
  ∧ (outcome = Auth.Next
     ↔ ∃ p, locals_user = Some p
         ∧ (Auth.isAdmin p = Some true ∨ Auth.username p = Some params_username)).
Proof.
  destruct locals_user as [p|]; simpl.
  - rewrite ensureOwnerOrAdmin_some.
    destruct (Auth.flag (Auth.isAdmin p)) eqn:Hf; simpl.
    + apply flag_true in Hf. split; [done|]. split; [by left|].
      split; [|done]. intros _. exists p. by split; [|left].
    + case_bool_decide as Hu; simpl.
      * split; [done|]. split; [by left|]. split; [|done].
        intros _. exists p. by split; [|right].
      * split; [done|]. split; [right; right; by eexists|]. split; [done|].
        intros (? & [= <-] & [Hadm|Hown]); [|done].
        apply flag_true in Hadm. congruence.
  - split; [done|]. split; [right; left; by eexists|]. split; [done|].
    by intros (? & ? & _).
Qed.

Lemma ensureLoggedIn_then_ensureOwnerOrAdmin_witness :
  Token.chain [Auth.ensureLoggedIn; λ user, Auth.ensureOwnerOrAdmin user "u1"]
    (Some {| Auth.username := Some "u1"; Auth.isAdmin := Some false |})
  = Auth.Next.
Proof.
  apply (ensureLoggedIn_then_ensureOwnerOrAdmin
           (Some {| Auth.username := Some "u1"; Auth.isAdmin := Some false |}) "u1").
  exists {| Auth.username := Some "u1"; Auth.isAdmin := Some false |}.
  split; [reflexivity|]. right. reflexivity.
Defined.

(** X6.  The three guards are ordered by strength: whatever [ensureAdmin]
    lets through, [ensureOwnerOrAdmin] lets through for every owner, and
    whatever [ensureOwnerOrAdmin] lets through, [ensureLoggedIn] lets
    through. *)
Theorem guards_ordered (locals_user : option Auth.payload) (params_username : string) :
  (Auth.ensureAdmin locals_user = Auth.Next →
   Auth.ensureOwnerOrAdmin locals_user params_username = Auth.Next)
  ∧ (Auth.ensureOwnerOrAdmin locals_user params_username = Auth.Next →
     Auth.ensureLoggedIn locals_user = Auth.Next).
Proof.
  destruct locals_user as [p|]; [|by split].
  rewrite ensureOwnerOrAdmin_some. unfold Auth.ensureAdmin, Auth.try_next.
  split; [|done]. by destruct (Auth.flag (Auth.isAdmin p)).
Qed.

Lemma guards_ordered_witness :
  Auth.ensureOwnerOrAdmin
    (Some {| Auth.username := Some "admin"; Auth.isAdmin := Some true |}) "u1" = Auth.Next
  ∧ Auth.ensureLoggedIn
      (Some {| Auth.username := Some "u1"; Auth.isAdmin := Some false |}) = Auth.Next.
Proof.
  split.
  - apply (guards_ordered (Some {| Auth.username := Some "admin"; Auth.isAdmin := Some true |})
             "u1").
    reflexivity.
  - apply (guards_ordered (Some {| Auth.username := Some "u1"; Auth.isAdmin := Some false |})
             "u1").
    reflexivity.
Defined.

(** * Properties of the asynchronous code *)

Section AsyncFacts.
Import Async.
Implicit Types (w : world) (past : list awaited).

Lemma run_from_await {A R} w past (c : call R) (k : R → async A) :
  run_from w past (await c k)
  = match w R past c with
    | Fulfilled r => run_from w (past ++ [Awaited c]) (k r)
    | Rejected reason => (past ++ [Awaited c], inl (External reason))
    end.
Proof. simpl. by destruct (w R past c). Qed.

Lemma run_from_then {A B} w past (t : async A) (k : A → async B) :
  run_from w past (then_ t k)
  = match run_from w past t with
    | (past', inr a) => run_from w past' (k a)
    | (past', inl f) => (past', inl f)
    end.
Proof.
  revert past. induction t as [a|f|R c k' IH]; intros past; simpl; [done|done|].
  apply IH.
Qed.

Lemma run_from_try_catch {A} w past (t : async A) (g : failure → A) :
  run_from w past (try_catch t (λ err, Return (g err)))
  = match run_from w past t with
    | (past', inr a) => (past', inr a)
    | (past', inl f) => (past', inr (g f))
    end.
Proof.
  revert past. induction t as [a|f|R c k IH]; intros past; simpl; [done|done|].
  apply IH.
Qed.

Lemma run_from_lift {A} w past (r : result A) :
  run_from w past (lift r)
  = (past, match r with Ok a => inr a | Throw e => inl (Raised e) end).
Proof. by destruct r. Qed.

(** The record of a run only grows. *)
Lemma run_from_extends {A} w past (t : async A) :
  ∃ more, (run_from w past t).1 = past ++ more.
Proof.
  revert past. induction t as [a|f|R c k IH]; intros past; simpl.
  - exists []. by rewrite app_nil_r.
  - exists []. by rewrite app_nil_r.
  - destruct (IH (w R past c) (past ++ [Awaited c])) as [more Hmore].
    exists (Awaited c :: more). by rewrite Hmore, <- app_assoc.
Qed.

Lemma has_elem key (o : jsobject) :
  has key o = true ↔ key ∈ Object_keys o ∨ Sql.inherited key = true.
Proof.
  unfold has. rewrite orb_true_iff, existsb_exists.
  split; (intros [H|H]; [left|by right]).
  - destruct H as (k & Hin & Heq). apply String.eqb_eq in Heq as ->.
    by apply list_elem_of_In.
  - exists key. split; [by apply list_elem_of_In|apply String.eqb_refl].
Qed.

Lemma lit_length vs : length (JobDb.lit vs) = length vs.
Proof. unfold JobDb.lit. apply length_fmap. Qed.

Lemma lit_lookup vs i : JobDb.lit vs !! i = Job.Lit <$> vs !! i.
Proof. unfold JobDb.lit. apply list_lookup_fmap. Qed.

End AsyncFacts.

(** X7.  [Job.update] refuses before it touches the database: data with a
    key [id] or [company_handle], and data without any key, are rejected
    with a [BadRequestError], and no promise has been awaited. *)
Theorem Job_update_refuses_before_query (w : Async.world) (jobId : jsval) (data : jsobject) :
  ("id" ∈ Object_keys data ∨ "company_handle" ∈ Object_keys data →
   Async.run w (JobDb.update jobId data)
   = ([], inl (Async.Raised
                 (BadRequestError "Updating id or company_handle is not allowed"))))
  ∧ (data = [] →
     Async.run w (JobDb.update jobId data)
     = ([], inl (Async.Raised (BadRequestError "No data")))).
Proof.
  split.
  - intros Hkey. unfold JobDb.update.
    assert (Async.has "id" data || Async.has "company_handle" data = true) as ->; [|done].
    apply orb_true_iff. destruct Hkey as [H|H]; [left|right]; apply has_elem; by left.
  - by intros ->.
Qed.

Lemma Job_update_refuses_before_query_witness :
  Async.run (Async.world_of (λ _ _, Async.Fulfilled []) (λ _, Async.Rejected "no")
               (λ _ _, Async.Rejected "no"))
    (JobDb.update (JNum 1) [("id", JStr "5")])
  = ([], inl (Async.Raised
                (BadRequestError "Updating id or company_handle is not allowed")))
  ∧ Async.run (Async.world_of (λ _ _, Async.Fulfilled []) (λ _, Async.Rejected "no")
                 (λ _ _, Async.Rejected "no"))
      (JobDb.update (JNum 1) [])
    = ([], inl (Async.Raised (BadRequestError "No data"))).
Proof.
  split.
  - apply Job_update_refuses_before_query. left. apply list_elem_of_here.
  - apply Job_update_refuses_before_query. reflexivity.
Defined.

Section JobDbFacts.
Import Async JobDb.
Implicit Types (w : world) (data : jsobject).

Lemma update_run w jobId data :
  data ≠ [] → has "id" data || has "company_handle" data = false →
  run w (update jobId data)
  = ([Awaited (db_query (update_text (Object_keys data))
                        (lit (Object_values data ++ [jobId])))],
     update_end w jobId (update_text (Object_keys data))
       (lit (Object_values data ++ [jobId]))).
Proof.
  intros Hne Hhas. unfold run, update, Sql.sqlForPartialUpdate1. rewrite Hhas.
  rewrite run_from_then, run_from_lift, sqlForPartialUpdate_nonempty by done.
  cbn [Sql.values Sql.setCols]. rewrite run_from_await.
  unfold update_end, update_text, Sql.cols.
  rewrite Object_values_length. simpl.
  destruct (w _ [] _) as [[|job rest]|reason]; reflexivity.
Qed.

Lemma has_keys key d1 d2 : Object_keys d1 = Object_keys d2 → has key d1 = has key d2.
Proof. unfold has. by intros ->. Qed.

Lemma Object_keys_nil data : Object_keys data = [] ↔ data = [].
Proof. unfold Object_keys. split; [apply fmap_nil_inv|by intros ->]. Qed.

Lemma Object_keys_length data : length (Object_keys data) = length data.
Proof. unfold Object_keys. apply length_fmap. Qed.

End JobDbFacts.

(** X8.  For data with at least one key, none of them [id] or
    [company_handle], [Job.update] awaits exactly one promise, the [UPDATE]
    statement built from [sqlForPartialUpdate]: its parameters are the
    values of the data in key order followed by the job id, and the
    placeholder of the [WHERE] clause is the position of the job id among
    them.  The first row that comes back is returned; no row is a
    [NotFoundError]; a rejection of the database is passed on. *)
Theorem Job_update_statement (w : Async.world) (jobId : jsval) (data : jsobject) :
  data ≠ [] → "id" ∉ Object_keys data → "company_handle" ∉ Object_keys data →
  let text :=
    JobDb.update_sql (join ", " (Sql.cols data ∅)) ("$" +:+ pretty (length data + 1)) in
  let params := JobDb.lit (Object_values data ++ [jobId]) in
  Async.run w (JobDb.update jobId data)
  = ([Async.Awaited (Async.db_query text params)],
     match w _ [] (Async.db_query text params) with
     | Async.Fulfilled (job :: _) => inr job
     | Async.Fulfilled [] =>
         inl (Async.NotFound [Async.Text "No job with id: "; Async.Interp jobId])
     | Async.Rejected reason => inl (Async.External reason)
     end)
  ∧ length params = length data + 1
  ∧ params !! length data = Some (Job.Lit jobId)
  ∧ ∀ i key v, data !! i = Some (key, v) → params !! i = Some (Job.Lit v).
Proof.
  intros Hne Hid Hch. cbv zeta. split; [|split; [|split]].
  - rewrite update_run; [|done|].
    + unfold JobDb.update_text, Sql.cols. by rewrite Object_keys_length.
    + apply orb_false_iff. split; apply not_true_iff_false; rewrite has_elem;
        intros [?|?]; done.
  - rewrite lit_length, length_app, <- (Object_keys_length data), <- Object_values_length.
    done.
  - rewrite lit_lookup, lookup_app_r; rewrite Object_values_length, Object_keys_length;
      [|done]. by rewrite Nat.sub_diag.
  - intros i key v Hi. rewrite lit_lookup.
    by rewrite (lookup_app_l_Some _ _ _ _ (Object_values_lookup _ _ _ _ Hi)).
Qed.

Lemma Job_update_statement_witness :
  Async.run (Async.world_of (λ _ _, Async.Fulfilled [[("id", JNum 1)]])
               (λ _, Async.Rejected "unused") (λ _ _, Async.Rejected "unused"))
    (JobDb.update (JNum 1) [("title", JStr "New"); ("salary", JNum 99999)])
  = ([Async.Awaited
        (Async.db_query
           (JobDb.update_sql
              (join ", " (Sql.cols [("title", JStr "New"); ("salary", JNum 99999)] ∅))
              ("$" +:+ pretty (2 + 1)))
           (JobDb.lit [JStr "New"; JNum 99999; JNum 1]))],
     inr [("id", JNum 1)]).
Proof.
  destruct (Job_update_statement
              (Async.world_of (λ _ _, Async.Fulfilled [[("id", JNum 1)]])
                 (λ _, Async.Rejected "unused") (λ _ _, Async.Rejected "unused"))
              (JNum 1) [("title", JStr "New"); ("salary", JNum 99999)])
    as (Hrun & _).
  - discriminate.
  - intros Hin. vm_compute in Hin. by repeat (inversion Hin as [|? ? ? Hin']; subst; clear Hin; rename Hin' into Hin).
  - intros Hin. vm_compute in Hin. by repeat (inversion Hin as [|? ? ? Hin']; subst; clear Hin; rename Hin' into Hin).
  - exact Hrun.
Defined.

(** X9.  The text of the statement [Job.update] sends depends on the keys
    of the data alone: two calls whose data have the same keys send the
    same text, whatever the values, the job ids and the database. *)
Theorem Job_update_text_from_keys
    (w1 w2 : Async.world) (jobId1 jobId2 : jsval) (data1 data2 : jsobject) :
  Object_keys data1 = Object_keys data2 →
  Async.texts (Async.run w1 (JobDb.update jobId1 data1)).1
  = Async.texts (Async.run w2 (JobDb.update jobId2 data2)).1.
Proof.
  intros Hkeys.
  destruct (Async.has "id" data1 || Async.has "company_handle" data1) eqn:Hhas.
  - unfold Async.run, JobDb.update.
    rewrite <- (has_keys "id" _ _ Hkeys), <- (has_keys "company_handle" _ _ Hkeys), Hhas.
    done.
  - destruct data1 as [|kv1 rest1].
    + symmetry in Hkeys. apply Object_keys_nil in Hkeys as ->. done.
    + assert (data2 ≠ []) as Hne2.
      { intros ->. discriminate. }
      rewrite !update_run, Hkeys; try done.
      by rewrite <- (has_keys "id" _ _ Hkeys), <- (has_keys "company_handle" _ _ Hkeys).
Qed.

Lemma Job_update_text_from_keys_witness :
  Async.texts
    (Async.run (Async.world_of (λ _ _, Async.Fulfilled []) (λ _, Async.Rejected "unused")
                  (λ _ _, Async.Rejected "unused"))
       (JobDb.update (JNum 1) [("title", JStr "New")])).1
  = Async.texts
      (Async.run (Async.world_of (λ _ _, Async.Rejected "down") (λ _, Async.Rejected "unused")
                    (λ _ _, Async.Rejected "unused"))
         (JobDb.update (JStr "1; DROP TABLE jobs") [("title", JStr "x', salary=0 --")])).1.
Proof.
  apply Job_update_text_from_keys. reflexivity.
Defined.

Section UserFacts.
Import Async User.
Implicit Types (w : world) (data : jsobject) (past : list awaited).

Lemma prop_truthy_in data key : truthy (prop data key) = true → key ∈ Object_keys data.
Proof.
  induction data as [|[k x] rest IH]; simpl; [done|].
  destruct (String.eqb_spec k key) as [->|_]; intros H.
  - apply list_elem_of_here.
  - apply list_elem_of_further. by apply IH.
Qed.

Lemma assign_keys data key v :
  key ∈ Object_keys data → Object_keys (assign data key v) = Object_keys data.
Proof.
  induction data as [|[k x] rest IH]; simpl; [by intros ?%not_elem_of_nil|].
  destruct (String.eqb_spec k key) as [->|Hne]; [done|].
  intros [?|Hin]%elem_of_cons; [done|]. simpl. f_equal. by apply IH.
Qed.

Lemma assign_lookup data key v i k x :
  NoDup (Object_keys data) → data !! i = Some (k, x) →
  assign data key v !! i = Some (k, if decide (k = key) then v else x).
Proof.
  revert i. induction data as [|[k0 x0] rest IH]; intros i Hnd Hi; [done|].
  simpl in Hnd. apply NoDup_cons in Hnd as [Hnotin Hnd]. simpl.
  destruct (String.eqb_spec k0 key) as [->|Hne].
  - destruct i as [|i]; simpl in *.
    + injection Hi as <- <-. by rewrite decide_True.
    + rewrite Hi. rewrite decide_False; [done|]. intros ->. apply Hnotin.
      apply (list_elem_of_lookup_2 _ i). unfold Object_keys.
      by rewrite list_lookup_fmap, Hi.
  - destruct i as [|i]; simpl in *.
    + injection Hi as <- <-. by rewrite decide_False.
    + by apply IH.
Qed.

Lemma assign_length data key v :
  key ∈ Object_keys data → length (assign data key v) = length data.
Proof.
  intros Hin. by rewrite <- !Object_keys_length, assign_keys.
Qed.

Lemma delete_prop_gone (o : jsobject) key : key ∉ Object_keys (delete_prop o key).
Proof.
  unfold delete_prop, Object_keys. intros Hin.
  apply list_elem_of_fmap in Hin as ([k x] & -> & Hin).
  apply list_elem_of_filter in Hin as [Hne _]. done.
Qed.

(** [update] from the point where [data.password] holds what is stored. *)
Lemma update_with_run w past username data :
  data ≠ [] →
  run_from w past (update_with username data)
  = let q := db_query
               (update_sql (join ", " (Sql.cols data jsToSql))
                  ("$" +:+ pretty (length data + 1)))
               (lit (Object_values data ++ [username])) in
    (past ++ [Awaited q],
     match w _ past q with
     | Fulfilled (user :: _) => inr (delete_prop user "password")
     | Fulfilled [] => inl (NotFound [Text "No user: "; Interp username])
     | Rejected reason => inl (External reason)
     end).
Proof.
  intros Hne. unfold update_with.
  rewrite run_from_then, run_from_lift, sqlForPartialUpdate_nonempty by done.
  cbn [Sql.values Sql.setCols]. rewrite run_from_await.
  rewrite Object_values_length, Object_keys_length. cbv zeta.
  destruct (w _ past _) as [[|user rest]|reason]; reflexivity.
Qed.

End UserFacts.

(** X10.  When the data of [User.update] carry a truthy password,
    [bcrypt.hash] of that password is awaited first.  If it is rejected,
    [update] is rejected and no statement is sent.  If it is fulfilled, one
    statement follows, and among its parameters the password's place holds
    the hash while every other value is passed as it came; the username
    comes last, at the position its placeholder names. *)
Theorem User_update_stores_hash
    (BCRYPT_WORK_FACTOR : Z) (w : Async.world) (username : jsval) (data : jsobject) :
  NoDup (Object_keys data) → truthy (Async.prop data "password") = true →
  let hashing := Async.bcrypt_hash (Async.prop data "password") BCRYPT_WORK_FACTOR in
  (∀ reason, w _ [] hashing = Async.Rejected reason →
     Async.run w (User.update BCRYPT_WORK_FACTOR username data)
     = ([Async.Awaited hashing], inl (Async.External reason)))
  ∧ (∀ hashed, w _ [] hashing = Async.Fulfilled hashed →
     ∃ params,
       (Async.run w (User.update BCRYPT_WORK_FACTOR username data)).1
       = [Async.Awaited hashing;
          Async.Awaited
            (Async.db_query
               (User.update_sql (join ", " (Sql.cols data User.jsToSql))
                  ("$" +:+ pretty (length data + 1)))
               params)]
       ∧ length params = length data + 1
       ∧ params !! length data = Some (Job.Lit username)
       ∧ ∀ i key v, data !! i = Some (key, v) →
           params !! i
           = Some (Job.Lit (if decide (key = "password") then JStr hashed else v))).
Proof.
  intros Hnd Hpw hashing. pose proof (prop_truthy_in _ _ Hpw) as Hin.
  unfold Async.run, User.update. rewrite Hpw, run_from_await. fold hashing.
  split.
  - by intros reason ->.
  - intros hashed ->.
    assert (Async.assign data "password" (JStr hashed) ≠ []) as Hne.
    { intros Hnil. apply (f_equal length) in Hnil.
      rewrite assign_length in Hnil by done.
      destruct data; [by apply not_elem_of_nil in Hin|done]. }
    rewrite update_with_run by done. cbv zeta. simpl fst.
    eexists. split; [|split; [|split]].
    + unfold Sql.cols. rewrite assign_keys, assign_length by done. reflexivity.
    + rewrite lit_length, length_app, Object_values_length, Object_keys_length,
        assign_length by done. done.
    + rewrite lit_lookup, lookup_app_r;
        rewrite Object_values_length, Object_keys_length, assign_length by done; [|done].
      by rewrite Nat.sub_diag.
    + intros i key v Hi. rewrite lit_lookup.
      pose proof (assign_lookup data "password" (JStr hashed) i key v Hnd Hi) as Ha.
      by rewrite (lookup_app_l_Some _ _ _ _ (Object_values_lookup _ _ _ _ Ha)).
Qed.

Lemma User_update_stores_hash_witness :
  ∃ params,
    (Async.run (Async.world_of (λ _ _, Async.Fulfilled []) (λ _, Async.Fulfilled "$2b$hash")
                  (λ _ _, Async.Rejected "unused"))
       (User.update 12 (JStr "u1") [("firstName", JStr "New"); ("password", JStr "secret")])).1
    = [Async.Awaited (Async.bcrypt_hash (JStr "secret") 12);
       Async.Awaited
         (Async.db_query
            (User.update_sql
               (join ", " (Sql.cols [("firstName", JStr "New"); ("password", JStr "secret")]
                             User.jsToSql))
               ("$" +:+ pretty (2 + 1)))
            params)]
    ∧ params !! 1 = Some (Job.Lit (JStr "$2b$hash")).
Proof.
  destruct (User_update_stores_hash 12
              (Async.world_of (λ _ _, Async.Fulfilled []) (λ _, Async.Fulfilled "$2b$hash")
                 (λ _ _, Async.Rejected "unused"))
              (JStr "u1") [("firstName", JStr "New"); ("password", JStr "secret")])
    as [_ Hhashed].
  - apply NoDup_cons. split; [|apply NoDup_singleton].
    intros Hin. apply list_elem_of_singleton in Hin. discriminate.
  - reflexivity.
  - destruct (Hhashed "$2b$hash" eq_refl) as (params & Hrun & _ & _ & Hvalues).
    exists params. split; [exact Hrun|].
    exact (Hvalues 1 "password" (JStr "secret") eq_refl).
Defined.

(** X11.  When the password of the data is absent or falsy (the empty
    string, for one), [User.update] does not hash: the only promise it
    awaits is the statement, and every value of the data, that password
    included, is passed as it came.  Data without any key are rejected
    with [BadRequestError("No data")] before anything is awaited. *)
Theorem User_update_falsy_password_not_hashed
    (BCRYPT_WORK_FACTOR : Z) (w : Async.world) (username : jsval) (data : jsobject) :
  truthy (Async.prop data "password") = false →
  (data ≠ [] →
   (Async.run w (User.update BCRYPT_WORK_FACTOR username data)).1
   = [Async.Awaited
        (Async.db_query
           (User.update_sql (join ", " (Sql.cols data User.jsToSql))
              ("$" +:+ pretty (length data + 1)))
           (User.lit (Object_values data ++ [username])))])
  ∧ (data = [] →
     Async.run w (User.update BCRYPT_WORK_FACTOR username data)
     = ([], inl (Async.Raised (BadRequestError "No data")))).
Proof.
  intros Hpw. unfold Async.run, User.update. rewrite Hpw. split.
  - intros Hne. by rewrite update_with_run.
  - by intros ->.
Qed.

Lemma User_update_falsy_password_not_hashed_witness :
  (Async.run (Async.world_of (λ _ _, Async.Fulfilled []) (λ _, Async.Fulfilled "$2b$hash")
                (λ _ _, Async.Rejected "unused"))
     (User.update 12 (JStr "u1") [("password", JStr EmptyString)])).1
  = [Async.Awaited
       (Async.db_query
          (User.update_sql
             (join ", " (Sql.cols [("password", JStr EmptyString)] User.jsToSql))
             ("$" +:+ pretty (1 + 1)))
          (User.lit [JStr EmptyString; JStr "u1"]))].
Proof.
  apply (User_update_falsy_password_not_hashed 12
           (Async.world_of (λ _ _, Async.Fulfilled []) (λ _, Async.Fulfilled "$2b$hash")
              (λ _ _, Async.Rejected "unused"))
           (JStr "u1") [("password", JStr EmptyString)]).
  - reflexivity.
  - discriminate.
Defined.

(** X12.  The [SET] clause of [User.update] names the columns
    [first_name], [last_name] and [is_admin] for the keys [firstName],
    [lastName] and [isAdmin], and names every other key that no object
    inherits by the key itself; the fragment for the key at index [i]
    carries the placeholder [$(i+1)]. *)
Theorem User_update_columns (data : jsobject) (i : nat) (key : string) (v : jsval) :
  data !! i = Some (key, v) → Sql.inherited key = false →
  Sql.cols data User.jsToSql !! i
  = Some (dquote
          +:+ (if decide (key = "firstName") then "first_name"
               else if decide (key = "lastName") then "last_name"
               else if decide (key = "isAdmin") then "is_admin"
               else key)
          +:+ dquote +:+ "=$" +:+ pretty (i + 1)).
Proof.
  intros Hi Hinh. erewrite cols_lookup by done. unfold Sql.fragment.
  assert (Sql.column User.jsToSql key
          = if decide (key = "firstName") then "first_name"
            else if decide (key = "lastName") then "last_name"
            else if decide (key = "isAdmin") then "is_admin"
            else key) as ->; [|done].
  unfold User.jsToSql.
  repeat case_decide; subst.
  - by apply column_own.
  - apply column_own; [|done]. by rewrite lookup_insert_ne, lookup_insert_eq.
  - apply column_own; [|done]. by rewrite !lookup_insert_ne, lookup_singleton_eq.
  - apply column_absent; [|done].
    by rewrite !lookup_insert_ne, lookup_singleton_ne.
Qed.

Lemma User_update_columns_witness :
  Sql.cols [("email", JStr "a@b.c"); ("isAdmin", JBool true)] User.jsToSql !! 1
  = Some (dquote
          +:+ (if decide ("isAdmin" = "firstName") then "first_name"
               else if decide ("isAdmin" = "lastName") then "last_name"
               else if decide ("isAdmin" = "isAdmin") then "is_admin"
               else "isAdmin")
          +:+ dquote +:+ "=$" +:+ pretty (1 + 1)).
Proof.
  apply (User_update_columns [("email", JStr "a@b.c"); ("isAdmin", JBool true)] 1
           "isAdmin" (JBool true)); reflexivity.
Defined.

(** X13.  Neither [User.authenticate] nor [User.update] ever returns an
    object with a [password] property, whatever rows the database hands
    back. *)
Theorem User_never_returns_password
    (BCRYPT_WORK_FACTOR : Z) (w : Async.world) (username password : jsval)
    (data : jsobject) :
  (∀ past user, Async.run w (User.authenticate username password) = (past, inr user) →
     "password" ∉ Object_keys user)
  ∧ (∀ past user, Async.run w (User.update BCRYPT_WORK_FACTOR username data)
                  = (past, inr user) →
       "password" ∉ Object_keys user).
Proof.
  assert (∀ past d past' user,
            Async.run_from w past (User.update_with username d) = (past', inr user) →
            "password" ∉ Object_keys user) as Hwith.
  { intros past d past' user. unfold User.update_with.
    rewrite run_from_then, run_from_lift.
    destruct (Sql.sqlForPartialUpdate d User.jsToSql) as [c|e]; [|done].
    rewrite run_from_await. destruct (w _ _ _) as [[|row rest]|reason]; try done.
    simpl. intros [= _ <-]. apply delete_prop_gone. }
  split; intros past user; unfold Async.run.
  - unfold User.authenticate. rewrite run_from_await.
    destruct (w _ _ _) as [[|row rest]|reason]; try done. simpl Async.first_row.
    cbv iota. rewrite run_from_await.
    destruct (w _ _ _) as [[]|reason]; try done.
    simpl. intros [= _ <-]. apply delete_prop_gone.
  - unfold User.update. destruct (truthy _).
    + rewrite run_from_await. destruct (w _ _ _) as [hashed|reason]; [|done].
      apply Hwith.
    + apply Hwith.
Qed.

Lemma User_never_returns_password_witness :
  "password" ∉ Object_keys [("username", JStr "u1")].
Proof.
  destruct (User_never_returns_password 12
              (Async.world_of
                 (λ _ _, Async.Fulfilled [[("username", JStr "u1"); ("password", JStr "$2b$h")]])
                 (λ _, Async.Rejected "unused") (λ _ _, Async.Fulfilled true))
              (JStr "u1") (JStr "secret") []) as [Hauth _].
  eapply Hauth. reflexivity.
Defined.

(** X14.  [User.authenticate] succeeds only when the database returned a
    row for the username and [bcrypt.compare] of the given password with
    that row's password was fulfilled with [true]; what it returns is that
    row without its password.  Every other end, short of a rejection by the
    database or by bcrypt, is the same
    [UnauthorizedError("Invalid username/password")], for an unknown user
    as for a wrong password; for an unknown user nothing is compared. *)
Theorem User_authenticate_outcomes (w : Async.world) (username password : jsval) :
  let lookup := Async.db_query User.authenticate_sql (User.lit [username]) in
  match (Async.run w (User.authenticate username password)).2 with
  | inr returned =>
      ∃ user rest,
        w _ [] lookup = Async.Fulfilled (user :: rest)
        ∧ w _ [Async.Awaited lookup]
            (Async.bcrypt_compare password (Async.prop user "password"))
          = Async.Fulfilled true
        ∧ returned = Async.delete_prop user "password"
  | inl f =>
      f = Async.Raised (UnauthorizedError (Some "Invalid username/password"))
      ∨ ∃ reason, f = Async.External reason
  end
  ∧ (w _ [] lookup = Async.Fulfilled [] →
     Async.run w (User.authenticate username password)
     = ([Async.Awaited lookup],
        inl (Async.Raised (UnauthorizedError (Some "Invalid username/password"))))).
Proof.
  intros lookup. unfold Async.run, User.authenticate. rewrite run_from_await.
  fold lookup. destruct (w _ [] lookup) as [[|user rest]|reason] eqn:Hl.
  - simpl. split; [by left|done].
  - simpl Async.first_row. cbv iota. rewrite run_from_await. split; [|done].
    destruct (w _ _ (Async.bcrypt_compare _ _)) as [[]|reason] eqn:Hc; simpl.
    + by exists user, rest.
    + by left.
    + right. by eexists.
  - simpl. split; [|done]. right. by eexists.
Qed.

Lemma User_authenticate_outcomes_witness :
  Async.run (Async.world_of (λ _ _, Async.Fulfilled []) (λ _, Async.Rejected "unused")
               (λ _ _, Async.Fulfilled true))
    (User.authenticate (JStr "nobody") (JStr "secret"))
  = ([Async.Awaited (Async.db_query User.authenticate_sql (User.lit [JStr "nobody"]))],
     inl (Async.Raised (UnauthorizedError (Some "Invalid username/password")))).
Proof.
  apply (User_authenticate_outcomes
           (Async.world_of (λ _ _, Async.Fulfilled []) (λ _, Async.Rejected "unused")
              (λ _ _, Async.Fulfilled true))
           (JStr "nobody") (JStr "secret")).
  reflexivity.
Defined.

(** X15.  In every run of [User.register], an [INSERT] is sent only after
    the duplicate check came back without a row and [bcrypt.hash] of the
    given password was fulfilled, and its second parameter, the stored
    password, is that hash.  When the check finds a row, [register] is
    rejected with a [BadRequestError] and neither hashes nor inserts. *)
Theorem User_register_stores_hash
    (BCRYPT_WORK_FACTOR : Z) (w : Async.world) (data : jsobject) :
  let username := Async.prop data "username" in
  let check := Async.db_query User.register_check_sql (User.lit [username]) in
  let hashing := Async.bcrypt_hash (Async.prop data "password") BCRYPT_WORK_FACTOR in
  (∀ params,
     Async.Awaited (Async.db_query User.register_insert_sql params)
     ∈ (Async.run w (User.register BCRYPT_WORK_FACTOR data)).1 →
     w _ [] check = Async.Fulfilled []
     ∧ ∃ hashed, w _ [Async.Awaited check] hashing = Async.Fulfilled hashed
         ∧ params
           = User.lit [username; JStr hashed; Async.prop data "firstName";
                       Async.prop data "lastName"; Async.prop data "email";
                       Async.prop data "isAdmin"])
  ∧ (∀ row rest, w _ [] check = Async.Fulfilled (row :: rest) →
     Async.run w (User.register BCRYPT_WORK_FACTOR data)
     = ([Async.Awaited check],
        inl (Async.BadRequest [Async.Text "Duplicate username: "; Async.Interp username]))).
Proof.
  intros username check hashing. unfold Async.run, User.register.
  rewrite run_from_await. fold username check.
  destruct (w _ [] check) as [[|row rest]|reason] eqn:Hcheck; simpl Async.first_row;
    cbv iota.
  - rewrite run_from_await. fold hashing. split; [|done].
    destruct (w _ _ hashing) as [hashed|reason] eqn:Hhash.
    + rewrite run_from_await. intros params Hin.
      assert (params = User.lit [username; JStr hashed; Async.prop data "firstName";
                                 Async.prop data "lastName"; Async.prop data "email";
                                 Async.prop data "isAdmin"]) as ->.
      { destruct (w _ _ (Async.db_query User.register_insert_sql _)); simpl in Hin;
          repeat (apply elem_of_cons in Hin as [Hin|Hin]; [by inversion Hin|]);
          by apply not_elem_of_nil in Hin. }
      split; [done|]. by exists hashed.
    + simpl. intros params Hin.
      repeat (apply elem_of_cons in Hin as [Hin|Hin]; [by inversion Hin|]).
      by apply not_elem_of_nil in Hin.
  - split; [|by intros ? ? [= <- <-]]. simpl. intros params Hin.
    repeat (apply elem_of_cons in Hin as [Hin|Hin]; [by inversion Hin|]).
    by apply not_elem_of_nil in Hin.
  - split; [|done]. simpl. intros params Hin.
    repeat (apply elem_of_cons in Hin as [Hin|Hin]; [by inversion Hin|]).
    by apply not_elem_of_nil in Hin.
Qed.

Lemma User_register_stores_hash_witness :
  Async.run (Async.world_of (λ _ _, Async.Fulfilled [[("username", JStr "u1")]])
               (λ _, Async.Fulfilled "$2b$hash") (λ _ _, Async.Rejected "unused"))
    (User.register 12 [("username", JStr "u1"); ("password", JStr "secret")])
  = ([Async.Awaited (Async.db_query User.register_check_sql (User.lit [JStr "u1"]))],
     inl (Async.BadRequest [Async.Text "Duplicate username: "; Async.Interp (JStr "u1")])).
Proof.
  eapply (User_register_stores_hash 12
            (Async.world_of (λ _ _, Async.Fulfilled [[("username", JStr "u1")]])
               (λ _, Async.Fulfilled "$2b$hash") (λ _ _, Async.Rejected "unused"))
            [("username", JStr "u1"); ("password", JStr "secret")]).
  reflexivity.
Defined.

(** X16.  [User.apply] asks for the job and for an earlier application in
    one [Promise.all].  When the job does not exist it is rejected with
    the job's [BadRequestError], also when an application exists; when the
    job exists and an application does too, with the application's.  In
    both cases nothing is inserted: an [INSERT] is only ever sent when the
    job was found and no application was, with the username and the job id
    as its parameters. *)
Theorem User_apply_checks (w : Async.world) (username jobId : jsval) :
  let both :=
    Async.Promise_all (Async.db_query User.apply_job_sql (User.lit [jobId]))
      (Async.db_query User.apply_check_sql (User.lit [username; jobId])) in
  (∀ applications, w _ [] both = Async.Fulfilled ([], applications) →
     Async.run w (User.apply username jobId)
     = ([Async.Awaited both],
        inl (Async.BadRequest [Async.Text "Job id of "; Async.Interp jobId;
                               Async.Text " does not exist."])))
  ∧ (∀ job jobs application applications,
       w _ [] both = Async.Fulfilled (job :: jobs, application :: applications) →
       Async.run w (User.apply username jobId)
       = ([Async.Awaited both],
          inl (Async.BadRequest [Async.Interp username;
                                 Async.Text " has already applied for this job."])))
  ∧ (∀ params,
       Async.Awaited (Async.db_query User.apply_insert_sql params)
       ∈ (Async.run w (User.apply username jobId)).1 →
       params = User.lit [username; jobId]
       ∧ ∃ job jobs, w _ [] both = Async.Fulfilled (job :: jobs, [])).
Proof.
  intros both. unfold Async.run, User.apply. rewrite run_from_await. fold both.
  split; [by intros ? ->|]. split; [by intros ? ? ? ? ->|].
  intros params.
  destruct (w _ [] both) as [[[|job jobs] [|application applications]]|reason];
    simpl; try (intros Hin;
                repeat (apply elem_of_cons in Hin as [Hin|Hin]; [by inversion Hin|]);
                by apply not_elem_of_nil in Hin).
  destruct (w _ _ _); simpl; intros Hin;
    (apply elem_of_cons in Hin as [Hin|Hin]; [by inversion Hin|]);
    (apply elem_of_cons in Hin as [Hin|Hin];
     [|by apply not_elem_of_nil in Hin]);
    (assert (params = User.lit [username; jobId]) as -> by by inversion Hin);
    (split; [done|by exists job, jobs]).
Qed.

Lemma User_apply_checks_witness :
  Async.run (Async.world_of
               (λ text _, if String.eqb text User.apply_job_sql then Async.Fulfilled []
                          else Async.Fulfilled [[("username", JStr "u1")]])
               (λ _, Async.Rejected "unused") (λ _ _, Async.Rejected "unused"))
    (User.apply (JStr "u1") (JNum 99))
  = ([Async.Awaited
        (Async.Promise_all (Async.db_query User.apply_job_sql (User.lit [JNum 99]))
           (Async.db_query User.apply_check_sql (User.lit [JStr "u1"; JNum 99])))],
     inl (Async.BadRequest [Async.Text "Job id of "; Async.Interp (JNum 99);
                            Async.Text " does not exist."])).
Proof.
  eapply (User_apply_checks
            (Async.world_of
               (λ text _, if String.eqb text User.apply_job_sql then Async.Fulfilled []
                          else Async.Fulfilled [[("username", JStr "u1")]])
               (λ _, Async.Rejected "unused") (λ _ _, Async.Rejected "unused"))
            (JStr "u1") (JNum 99)).
  vm_compute. reflexivity.
Defined.

(** * Properties of the job routes *)

Section RouteFacts.
Import Async JobsRoutes.
Implicit Types (w : world) (locals_user : option Auth.payload).

Lemma handler_run w (body : async reply) :
  run w (handler body)
  = match run w body with
    | (past, inr r) => (past, inr r)
    | (past, inl err) => (past, inr (NextErr err))
    end.
Proof. unfold run, handler. apply run_from_try_catch. Qed.

Lemma guarded_refused w locals_user (body : async reply) :
  Auth.ensureAdmin locals_user ≠ Auth.Next →
  ∃ err, (err = UnauthorizedError None ∨ err = ForbiddenError "User must be admin")
       ∧ run w (guarded admin_only locals_user body) = ([], inr (NextErr (Raised err))).
Proof.
  intros Hno. unfold guarded. destruct locals_user as [p|]; simpl.
  - exists (ForbiddenError "User must be admin"). split; [by right|].
    unfold Auth.ensureAdmin, Auth.try_next in *.
    by destruct (Auth.flag (Auth.isAdmin p)).
  - exists (UnauthorizedError None). split; [by left|done].
Qed.

Lemma guarded_admin w locals_user (body : async reply) :
  Auth.ensureAdmin locals_user = Auth.Next →
  run w (guarded admin_only locals_user body) = run w body.
Proof.
  intros Hadm. unfold guarded. destruct locals_user as [p|]; [|done]. simpl.
  by rewrite Hadm.
Qed.

Lemma check_run {A} w (errs : list string) (k : () → async A) :
  run w (then_ (check errs) k)
  = match errs with
    | [] => run w (k ())
    | _ => ([], inl (BadRequestAll errs))
    end.
Proof. by destruct errs. Qed.

End RouteFacts.

(** X17.  The three job routes that change data do nothing for a request
    [ensureAdmin] would refuse: without awaiting any promise, and before
    the body is validated, they hand [next()] the [UnauthorizedError] of
    [ensureLoggedIn] (no actor) or the [ForbiddenError] of [ensureAdmin]
    (an actor that is not an admin). *)
Theorem job_routes_closed_to_others
    (jobNewSchema jobUpdateSchema : jsobject → list string) (w : Async.world)
    (locals_user : option Auth.payload) (params_id : string) (req_body : jsobject) :
  Auth.ensureAdmin locals_user ≠ Auth.Next →
  ∃ err,
    (err = UnauthorizedError None ∨ err = ForbiddenError "User must be admin")
    ∧ Async.run w (JobsRoutes.post jobNewSchema locals_user req_body)
      = ([], inr (JobsRoutes.NextErr (Async.Raised err)))
    ∧ Async.run w (JobsRoutes.patch jobUpdateSchema locals_user params_id req_body)
      = ([], inr (JobsRoutes.NextErr (Async.Raised err)))
    ∧ Async.run w (JobsRoutes.delete_one locals_user params_id)
      = ([], inr (JobsRoutes.NextErr (Async.Raised err))).
Proof.
  intros Hno. unfold JobsRoutes.post, JobsRoutes.patch, JobsRoutes.delete_one.
  destruct locals_user as [p|]; simpl.
  - exists (ForbiddenError "User must be admin"). split; [by right|].
    unfold JobsRoutes.guarded. simpl.
    unfold Auth.ensureAdmin, Auth.try_next in *.
    by destruct (Auth.flag (Auth.isAdmin p)).
  - exists (UnauthorizedError None). split; [by left|done].
Qed.

Lemma job_routes_closed_to_others_witness :
  ∃ err,
    (err = UnauthorizedError None ∨ err = ForbiddenError "User must be admin")
    ∧ Async.run (Async.world_of (λ _ _, Async.Fulfilled []) (λ _, Async.Rejected "unused")
                   (λ _ _, Async.Rejected "unused"))
        (JobsRoutes.delete_one
           (Some {| Auth.username := Some "u1"; Auth.isAdmin := Some false |}) "1")
      = ([], inr (JobsRoutes.NextErr (Async.Raised err))).
Proof.
  destruct (job_routes_closed_to_others (λ _, []) (λ _, [])
              (Async.world_of (λ _ _, Async.Fulfilled []) (λ _, Async.Rejected "unused")
                 (λ _ _, Async.Rejected "unused"))
              (Some {| Auth.username := Some "u1"; Auth.isAdmin := Some false |}) "1" [])
    as (err & Herr & _ & _ & Hdel); [discriminate|].
  exists err. split; [exact Herr|exact Hdel].
Defined.

(** X18.  No job route ever ends in a rejected promise: whatever the
    actor, the request, the validators and the database do, each of the
    five routes ends by answering or by calling [next(err)]. *)
Theorem job_routes_always_answer
    (jobNewSchema jobUpdateSchema : jsobject → list string) (w : Async.world)
    (locals_user : option Auth.payload) (params_id : string) (req_body : jsobject)
    (req_query : gmap string jsval) :
  (∃ r, (Async.run w (JobsRoutes.post jobNewSchema locals_user req_body)).2 = inr r)
  ∧ (∃ r, (Async.run w (JobsRoutes.get_all req_query)).2 = inr r)
  ∧ (∃ r, (Async.run w (JobsRoutes.get_one params_id)).2 = inr r)
  ∧ (∃ r, (Async.run w (JobsRoutes.patch jobUpdateSchema locals_user params_id req_body)).2
          = inr r)
  ∧ (∃ r, (Async.run w (JobsRoutes.delete_one locals_user params_id)).2 = inr r).
Proof.
  assert (∀ body, ∃ r, (Async.run w (JobsRoutes.handler body)).2 = inr r) as Hhandler.
  { intros body. rewrite handler_run.
    destruct (Async.run w body) as [past [err|r]]; by eexists. }
  assert (∀ body, ∃ r, (Async.run w (JobsRoutes.guarded JobsRoutes.admin_only locals_user
                                       (JobsRoutes.handler body))).2 = inr r) as Hguarded.
  { intros body. unfold JobsRoutes.guarded.
    destruct (Token.chain _ _); [apply Hhandler|by eexists]. }
  unfold JobsRoutes.post, JobsRoutes.patch, JobsRoutes.delete_one,
    JobsRoutes.get_all, JobsRoutes.get_one.
  repeat split; (apply Hguarded || apply Hhandler).
Qed.

(** X19.  For an admin, a body the validator objects to never reaches the
    model: [POST /] and [PATCH /:id] hand [next()] a [BadRequestError] with
    the validator's messages and await nothing.  And a [PATCH] whose body
    passes validation but has no key at all is refused by the model with
    [BadRequestError("No data")], again without a statement being sent. *)
Theorem job_routes_validate_first
    (jobNewSchema jobUpdateSchema : jsobject → list string) (w : Async.world)
    (locals_user : option Auth.payload) (params_id : string) (req_body : jsobject) :
  Auth.ensureAdmin locals_user = Auth.Next →
  (jobNewSchema req_body ≠ [] →
   Async.run w (JobsRoutes.post jobNewSchema locals_user req_body)
   = ([], inr (JobsRoutes.NextErr (Async.BadRequestAll (jobNewSchema req_body)))))
  ∧ (jobUpdateSchema req_body ≠ [] →
     Async.run w (JobsRoutes.patch jobUpdateSchema locals_user params_id req_body)
     = ([], inr (JobsRoutes.NextErr (Async.BadRequestAll (jobUpdateSchema req_body)))))
  ∧ (jobUpdateSchema req_body = [] → req_body = [] →
     Async.run w (JobsRoutes.patch jobUpdateSchema locals_user params_id req_body)
     = ([], inr (JobsRoutes.NextErr (Async.Raised (BadRequestError "No data"))))).
Proof.
  intros Hadm. unfold JobsRoutes.post, JobsRoutes.patch.
  rewrite !guarded_admin, !handler_run, !check_run by done.
  split; [|split].
  - by destruct (jobNewSchema req_body).
  - by destruct (jobUpdateSchema req_body).
  - by intros -> ->.
Qed.

Lemma job_routes_validate_first_witness :
  Async.run (Async.world_of (λ _ _, Async.Fulfilled []) (λ _, Async.Rejected "unused")
               (λ _ _, Async.Rejected "unused"))
    (JobsRoutes.post (λ _, ["instance requires property title"])
       (Some {| Auth.username := Some "admin"; Auth.isAdmin := Some true |})
       [("salary", JNum 75000)])
  = ([], inr (JobsRoutes.NextErr (Async.BadRequestAll ["instance requires property title"])))
  ∧ Async.run (Async.world_of (λ _ _, Async.Fulfilled []) (λ _, Async.Rejected "unused")
                 (λ _ _, Async.Rejected "unused"))
      (JobsRoutes.patch (λ _, [])
         (Some {| Auth.username := Some "admin"; Auth.isAdmin := Some true |}) "1" [])
    = ([], inr (JobsRoutes.NextErr (Async.Raised (BadRequestError "No data")))).
Proof.
  split.
  - eapply (job_routes_validate_first (λ _, ["instance requires property title"]) (λ _, [])
              _ (Some {| Auth.username := Some "admin"; Auth.isAdmin := Some true |}) "1"
              [("salary", JNum 75000)]); [reflexivity|discriminate].
  - eapply (job_routes_validate_first (λ _, []) (λ _, [])
              _ (Some {| Auth.username := Some "admin"; Auth.isAdmin := Some true |}) "1" []);
      reflexivity.
Defined.

(** * Further properties of [Job.findAll] *)

Section FindAllFacts.
Import Job.

Lemma push_text_lookup text (fs : list string) k f :
  push_text text fs !! k = Some f →
  fs !! k = Some f ∨ (k = length fs ∧ f = text (pretty (k + 1))).
Proof.
  unfold push_text. intros H. apply lookup_app_Some in H as [H|[Hk H]]; [by left|].
  right. apply list_lookup_singleton_Some in H as [Hz <-].
  assert (k = length fs) as -> by lia. done.
Qed.

Lemma title_texts_lookup n k f :
  ((λ i, title_text (pretty (i + 1))) <$> seq 0 n) !! k = Some f →
  f = title_text (pretty (k + 1)).
Proof.
  rewrite list_lookup_fmap. intros H.
  destruct (seq 0 n !! k) as [i|] eqn:Hi; [|done].
  apply lookup_seq in Hi as [-> _]. by injection H as <-.
Qed.

Lemma filter_texts_lookup n salary equity k f :
  filter_texts n salary equity !! k = Some f →
  f = title_text (pretty (k + 1)) ∨ f = salary_text (pretty (k + 1))
  ∨ f = equity_text (pretty (k + 1)).
Proof.
  unfold filter_texts. destruct salary, equity; intros H;
    repeat (apply push_text_lookup in H as [H|[_ ->]]; [|by auto]);
    left; by eapply title_texts_lookup.
Qed.


End FindAllFacts.

(** X20.  In what [findAll] builds, placeholders are numbered from one in
    the order of the predicates, without gaps: the predicate at index [k]
    is one of the three templates with the placeholder [$(k+1)], and there
    are as many parameters as predicates. *)
Theorem findAll_placeholders_in_order
    (queries : gmap string jsval) (st : Job.filters) (k : nat) (f : string) :
  Job.findAll_filters queries = Ok st → Job.queryFilters st !! k = Some f →
  length (Job.queryFilters st) = length (Job.queryValues st)
  ∧ (f = "title ILIKE $" +:+ pretty (k + 1)
     ∨ f = "salary >= $" +:+ pretty (k + 1) +:+ " "
     ∨ f = "equity > $" +:+ pretty (k + 1) +:+ " AND equity IS NOT NULL").
Proof.
  intros Hst Hk. split; [by apply (findAll_filters_balanced queries)|].
  pose proof (findAll_filters_texts queries) as Ht. rewrite Hst in Ht.
  revert Ht. unfold_result.
  destruct (Job.word_count (Job.title_of queries)) as [n|]; [|discriminate].
  intros [= Heq]. rewrite Heq in Hk. by apply filter_texts_lookup in Hk.
Qed.

Lemma findAll_placeholders_in_order_witness :
  "salary >= $2 " = "title ILIKE $" +:+ pretty (1 + 1)
  ∨ "salary >= $2 " = "salary >= $" +:+ pretty (1 + 1) +:+ " "
  ∨ "salary >= $2 " = "equity > $" +:+ pretty (1 + 1) +:+ " AND equity IS NOT NULL".
Proof.
  eapply (findAll_placeholders_in_order
            {[ "title" := JStr "j1"; "minSalary" := JStr "40000" ]} _ 1 "salary >= $2 ").
  - vm_compute. reflexivity.
  - reflexivity.
Defined.




